(** * AIdo-backend: the prompt-to-schedule extraction pipeline

    A shallow embedding of [src/utils/timeUtils.ts] (relative-time
    resolver) and of [src/services/geminiService.ts] (post-processing,
    validation and orchestration), together with the parts of the
    JavaScript host they lean on: regular expressions, [Date] and the
    values [JSON.parse] can produce.

    Strings are sequences of code units.  The embedding covers the strings
    whose code units are all below 256 (one [ascii] per code unit); on that
    range white space, lower-casing and case-insensitive comparison are
    written out exactly as ECMAScript defines them. *)

From Stdlib Require Import ZArith Ascii String DecimalString Lia.
From stdpp Require Import gmap strings list.

Local Open Scope Z_scope.
Set Warnings "-register-all".

(** ** Code units *)

Module CodeUnit.

Definition code (c : ascii) : N := N_of_ascii c.

Definition between (lo hi : N) (c : ascii) : bool :=
  ((lo <=? code c) && (code c <=? hi))%N.

(** [\d] *)
Definition isDigit (c : ascii) : bool := between 48 57 c.

(** [\s]: WhiteSpace and LineTerminator code units below 256, that is
    TAB, LF, VT, FF, CR, SP and NBSP. *)
Definition isSpace (c : ascii) : bool :=
  between 9 13 c || (code c =? 32)%N || (code c =? 160)%N.

(** [[\s\S]] *)
Definition isAny (_ : ascii) : bool := true.

(** [\w], the word characters that [\b] looks at. *)
Definition isWord (c : ascii) : bool :=
  between 97 122 c || between 65 90 c || isDigit c || (code c =? 95)%N.

Definition isUpperAZ (c : ascii) : bool := between 65 90 c.
Definition isLowerAZ (c : ascii) : bool := between 97 122 c.

(** [String.prototype.toLowerCase] on one code unit below 256: the
    letters A-Z and the Latin-1 capitals U+00C0-U+00DE (without the
    multiplication sign U+00D7) move up by 32. *)
Definition toLower (c : ascii) : ascii :=
  if isUpperAZ c || (between 192 222 c && negb (code c =? 215)%N)
  then ascii_of_N (code c + 32) else c.

(** Canonicalize of a case-insensitive, non-unicode pattern: upper-casing,
    except that a code unit from 128 on is never mapped below 128.  Only
    a-z therefore change among the code units that can equal a
    canonicalized ASCII pattern character. *)
Definition canonicalize (c : ascii) : ascii :=
  if isLowerAZ c then ascii_of_N (code c - 32) else c.

Definition eqb_cu (ignoreCase : bool) (p c : ascii) : bool :=
  if ignoreCase then Ascii.eqb (canonicalize p) (canonicalize c)
  else Ascii.eqb p c.

End CodeUnit.

(** ** Regular expressions

    A backtracking matcher for the fragment of the pattern language that
    the sources use: literals, the classes [\d], [\s] and [[\s\S]] with
    greedy [+] and [*], alternation tried left to right, capture groups,
    [\b], [^] and [$] (no multiline flag), and the [i] flag. *)

Module RegExp.
Import CodeUnit.

Inductive regex : Type :=
| Eps
| Lit (s : string)
| Plus (cls : ascii -> bool)
| Star (cls : ascii -> bool)
| Rep (n : nat) (cls : ascii -> bool)
| Cat (r1 r2 : regex)
| Alt (r1 r2 : regex)
| Group (r : regex)
| WordB
| Bol
| Eol.

(** A position in the input: the code unit before it (for [\b] and [^]),
    the code units from it on, and the captures closed so far, in the
    order their groups closed. *)
Record mstate : Type := MState {
  prev : option ascii;
  rest : list ascii;
  caps : list (list ascii)
}.

Definition cont : Type := mstate -> option mstate.

Definition step (c : ascii) (tl : list ascii) (st : mstate) : mstate :=
  MState (Some c) tl (caps st).

Fixpoint lit (ic : bool) (s : list ascii) (k : cont) (st : mstate)
  : option mstate :=
  match s with
  | [] => k st
  | p :: s' =>
      match rest st with
      | c :: tl => if eqb_cu ic p c then lit ic s' k (step c tl st) else None
      | [] => None
      end
  end.

(** Greedy repetition: take code units of the class while there are any,
    then give them back one at a time until the continuation accepts. *)
Fixpoint greedy (cls : ascii -> bool) (k : cont) (p : option ascii)
  (l : list ascii) (cs : list (list ascii)) : option mstate :=
  match l with
  | c :: tl =>
      if cls c then
        match greedy cls k (Some c) tl cs with
        | Some r => Some r
        | None => k (MState p l cs)
        end
      else k (MState p l cs)
  | [] => k (MState p l cs)
  end.

Fixpoint rep (n : nat) (cls : ascii -> bool) (k : cont) (st : mstate)
  : option mstate :=
  match n with
  | O => k st
  | S n' =>
      match rest st with
      | c :: tl => if cls c then rep n' cls k (step c tl st) else None
      | [] => None
      end
  end.

Definition isWordOpt (o : option ascii) : bool :=
  match o with Some c => isWord c | None => false end.

Definition consumed (from to : mstate) : list ascii :=
  firstn (length (rest from) - length (rest to))%nat (rest from).

Fixpoint m (ic : bool) (r : regex) (k : cont) (st : mstate)
  : option mstate :=
  match r with
  | Eps => k st
  | Lit s => lit ic (list_ascii_of_string s) k st
  | Plus cls =>
      match rest st with
      | c :: tl =>
          if cls c then greedy cls k (Some c) tl (caps st) else None
      | [] => None
      end
  | Star cls => greedy cls k (prev st) (rest st) (caps st)
  | Rep n cls => rep n cls k st
  | Cat r1 r2 => m ic r1 (m ic r2 k) st
  | Alt r1 r2 =>
      match m ic r1 k st with
      | Some r => Some r
      | None => m ic r2 k st
      end
  | Group r' =>
      m ic r'
        (fun st' =>
           k (MState (prev st') (rest st') (caps st' ++ [consumed st st'])))
        st
  | WordB =>
      if xorb (isWordOpt (prev st)) (isWordOpt (head (rest st)))
      then k st else None
  | Bol => match prev st with None => k st | Some _ => None end
  | Eol => match rest st with [] => k st | _ :: _ => None end
  end.

(** A continuation never hands back more input than it was given. *)
Definition shrinks (k : cont) : Prop :=
  forall st st', k st = Some st' ->
    (length (rest st') <= length (rest st))%nat.

(** The result of a match: the matched text followed by the captures,
    as the array that [String.prototype.match] returns. *)
Definition matchAt (ic : bool) (r : regex) (p : option ascii)
  (l : list ascii) : option (list string) :=
  let st0 := MState p l [] in
  match m ic r Some st0 with
  | Some st1 =>
      Some (map string_of_list_ascii (consumed st0 st1 :: caps st1))
  | None => None
  end.

(** Leftmost match: every start position in turn, the end of the input
    included. *)
Fixpoint search (ic : bool) (r : regex) (p : option ascii)
  (l : list ascii) : option (list string) :=
  match matchAt ic r p l with
  | Some res => Some res
  | None =>
      match l with
      | c :: tl => search ic r (Some c) tl
      | [] => None
      end
  end.

(** A pattern with its flags. *)
Record pattern : Type := Pattern { source : regex; ignoreCase : bool }.

(** [s.match(pattern)] for a pattern without the [g] flag. *)
Definition match_ (s : string) (pat : pattern) : option (list string) :=
  search (ignoreCase pat) (source pat) None (list_ascii_of_string s).

(** [pattern.test(s)] *)
Definition test (pat : pattern) (s : string) : bool :=
  match match_ s pat with Some _ => true | None => false end.

Fixpoint cat (rs : list regex) : regex :=
  match rs with
  | [] => Eps
  | [r] => r
  | r :: rs' => Cat r (cat rs')
  end.

Fixpoint alt (r : regex) (rs : list regex) : regex :=
  match rs with
  | [] => r
  | r' :: rs' => Alt r (alt r' rs')
  end.

End RegExp.

(** ** Results of calls that may throw *)

(** What a [catch] clause can receive: an instance of [Error] or of one of
    its subclasses, or any other thrown value. *)
Inductive exn : Type :=
| RangeError (msg : string)
| SyntaxError (msg : string)
| TypeError (msg : string)
| Error (msg : string)
| NotAnError.

(** [error instanceof Error ? error.message : 'Unknown error occurred'] *)
Definition message (e : exn) : string :=
  match e with
  | RangeError s | SyntaxError s | TypeError s | Error s => s
  | NotAnError => "Unknown error occurred"
  end.

Inductive result (A : Type) : Type :=
| Ok (a : A)
| Throw (e : exn).
Arguments Ok {A} a.
Arguments Throw {A} e.

#[global] Instance result_ret : MRet result := fun A a => Ok a.
#[global] Instance result_bind : MBind result := fun A B f r =>
  match r with Ok a => f a | Throw e => Throw e end.

(** ** String built-ins *)

Module JSString.
Import CodeUnit.

Definition toLowerCase (s : string) : string :=
  string_of_list_ascii (map toLower (list_ascii_of_string s)).

Fixpoint trimStart (l : list ascii) : list ascii :=
  match l with
  | c :: tl => if isSpace c then trimStart tl else l
  | [] => []
  end.

(** [String.prototype.trim]: white space and line terminators go from
    both ends. *)
Definition trim (s : string) : string :=
  string_of_list_ascii
    (rev (trimStart (rev (trimStart (list_ascii_of_string s))))).

Fixpoint upTo (sep : ascii) (l : list ascii) : list ascii :=
  match l with
  | c :: tl => if Ascii.eqb c sep then [] else c :: upTo sep tl
  | [] => []
  end.

(** [s.split(sep)[0]] for a separator of one code unit. *)
Definition splitHead (sep : ascii) (s : string) : string :=
  string_of_list_ascii (upTo sep (list_ascii_of_string s)).

(** [s.slice(0, n)] *)
Definition sliceTo (n : nat) (s : string) : string :=
  string_of_list_ascii (firstn n (list_ascii_of_string s)).

Definition digitValue (c : ascii) : Z := Z.of_N (code c) - 48.

(** [parseInt] on a string of decimal digits (what [(\d+)] captures).
    The host rounds to a double: the value is exact below 2^53, and from
    there on any unit takes the instant out of the range of [Date]. *)
Definition parseInt (s : string) : Z :=
  fold_left (fun acc c => 10 * acc + digitValue c)
    (list_ascii_of_string s) 0.

Definition digitChar (n : Z) : ascii := ascii_of_N (Z.to_N (48 + n mod 10)).

(** The [w] low decimal digits of [n], most significant first. *)
Fixpoint decimal (w : nat) (n : Z) : list ascii :=
  match w with
  | O => []
  | S w' => decimal w' (n / 10) ++ [digitChar n]
  end.

Definition pad (w : nat) (n : Z) : string :=
  string_of_list_ascii (decimal w n).

End JSString.

(** ** The host's [Date]

    The abstract operations of ECMAScript, section "Date Objects".  A time
    value is a number of milliseconds since the epoch, or NaN ([None]).
    The host computes on IEEE doubles, which are exact on the integers up
    to 2^53.  A valid time value is at most 8.64e15 in magnitude, below
    2^53, and a sum that leaves that range ends as NaN in [TimeClip]
    however it was rounded, so the operations are written on [Z].
    Rounding could only show in a sum of [MakeTime] beyond 2^53 whose date
    still lands in range, that is for more than 1.5e11 minutes added to an
    instant some 285000 years back; statements about minutes bound the
    amount ([Phrases.exactMinutes]).

    The local time zone is the host's: an offset from UTC for every
    instant and for every local time, as daylight saving and other
    transitions make it ([zone]). *)

Module JSDate.
Import JSString.

Definition msPerSecond : Z := 1000.
Definition msPerMinute : Z := 60000.
Definition msPerHour : Z := 3600000.
Definition msPerDay : Z := 86400000.
Definition maxTime : Z := 8640000000000000.

Definition Day (t : Z) : Z := t / msPerDay.
Definition TimeWithinDay (t : Z) : Z := t mod msPerDay.

Definition isLeap (y : Z) : bool :=
  if negb (y mod 4 =? 0) then false
  else if negb (y mod 100 =? 0) then true
  else if negb (y mod 400 =? 0) then false
  else true.

Definition DaysInYear (y : Z) : Z := if isLeap y then 366 else 365.

Definition DayFromYear (y : Z) : Z :=
  365 * (y - 1970) + (y - 1969) / 4 - (y - 1901) / 100 + (y - 1601) / 400.

Definition TimeFromYear (y : Z) : Z := msPerDay * DayFromYear y.

(** The year of a day number: the largest [y] with [DayFromYear y <= d]
    (lemma [YearFromDay_spec]).  A year lasts 146097/400 days on average,
    which places the year within one of the quotient. *)
Definition YearFromDay (d : Z) : Z :=
  let y := 1970 + (d * 400) / 146097 in
  if d <? DayFromYear y then y - 1
  else if DayFromYear (y + 1) <=? d then y + 1
  else y.

Definition YearFromTime (t : Z) : Z := YearFromDay (Day t).

Definition InLeapYear (t : Z) : Z :=
  if isLeap (YearFromTime t) then 1 else 0.

Definition DayWithinYear (t : Z) : Z :=
  Day t - DayFromYear (YearFromTime t).

(** Day within the year on which month [mn] (0 to 11) starts. *)
Definition monthStart (mn : Z) (leap : Z) : Z :=
  match mn with
  | 0 => 0
  | 1 => 31
  | 2 => 59 + leap
  | 3 => 90 + leap
  | 4 => 120 + leap
  | 5 => 151 + leap
  | 6 => 181 + leap
  | 7 => 212 + leap
  | 8 => 243 + leap
  | 9 => 273 + leap
  | 10 => 304 + leap
  | _ => 334 + leap
  end.

Definition MonthFromTime (t : Z) : Z :=
  let d := DayWithinYear t in
  let leap := InLeapYear t in
  if d <? 31 then 0
  else if d <? 59 + leap then 1
  else if d <? 90 + leap then 2
  else if d <? 120 + leap then 3
  else if d <? 151 + leap then 4
  else if d <? 181 + leap then 5
  else if d <? 212 + leap then 6
  else if d <? 243 + leap then 7
  else if d <? 273 + leap then 8
  else if d <? 304 + leap then 9
  else if d <? 334 + leap then 10
  else 11.

Definition DateFromTime (t : Z) : Z :=
  DayWithinYear t - monthStart (MonthFromTime t) (InLeapYear t) + 1.

Definition HourFromTime (t : Z) : Z := (t / msPerHour) mod 24.
Definition MinFromTime (t : Z) : Z := (t / msPerMinute) mod 60.
Definition SecFromTime (t : Z) : Z := (t / msPerSecond) mod 60.
Definition msFromTime (t : Z) : Z := t mod msPerSecond.

Definition MakeTime (hour min sec ms : Z) : Z :=
  hour * msPerHour + min * msPerMinute + sec * msPerSecond + ms.

(** The day number of the first of month [month mod 12] in year
    [year + month / 12], moved by [date - 1] days. *)
Definition MakeDay (year month date : Z) : Z :=
  let ym := year + month / 12 in
  let mn := month mod 12 in
  DayFromYear ym + monthStart mn (if isLeap ym then 1 else 0) + date - 1.

Definition MakeDate (day time : Z) : Z := day * msPerDay + time.

Definition TimeClip (t : Z) : option Z :=
  if Z.abs t <=? maxTime then Some t else None.

(** A [Date] object: its time value. *)
Definition Date : Type := option Z.

(** A local time zone, the LocalTZA(t, isUTC) of ECMAScript: the offset
    from UTC, in milliseconds, that is in force at the UTC instant [t]
    ([isUTC] true), or at the local time [t] ([isUTC] false).  At a local
    time that a transition skips or repeats, the host takes the offset
    in force before the transition. *)
Definition zone : Type := Z -> bool -> Z.

(** The zone that keeps one offset: no daylight saving, no other
    transition. *)
Definition fixedOffset (offset : Z) : zone := fun _ _ => offset.

(** A number stands for the zone that keeps that offset. *)
Coercion fixedOffset : Z >-> zone.

Section LocalZone.

(** The host's local time zone. *)
Variable tza : zone.

Definition LocalTime (t : Z) : Z := t + tza t true.
Definition UTC (t : Z) : Z := t - tza t false.

(** Getters in local time; NaN for an invalid date. *)
Definition getMinutes (d : Date) : option Z :=
  t ← d; Some (MinFromTime (LocalTime t)).
Definition getHours (d : Date) : option Z :=
  t ← d; Some (HourFromTime (LocalTime t)).
Definition getDate (d : Date) : option Z :=
  t ← d; Some (DateFromTime (LocalTime t)).
Definition getMonth (d : Date) : option Z :=
  t ← d; Some (MonthFromTime (LocalTime t)).
Definition getFullYear (d : Date) : option Z :=
  t ← d; Some (YearFromTime (LocalTime t)).

(** Setters in local time.  The argument is a number or NaN. *)
Definition setMinutes (d : Date) (min : option Z) : Date :=
  t0 ← d; mi ← min;
  let t := LocalTime t0 in
  TimeClip (UTC (MakeDate (Day t)
    (MakeTime (HourFromTime t) mi (SecFromTime t) (msFromTime t)))).

Definition setHours (d : Date) (hour : option Z) : Date :=
  t0 ← d; h ← hour;
  let t := LocalTime t0 in
  TimeClip (UTC (MakeDate (Day t)
    (MakeTime h (MinFromTime t) (SecFromTime t) (msFromTime t)))).

Definition setDate (d : Date) (date : option Z) : Date :=
  t0 ← d; dt ← date;
  let t := LocalTime t0 in
  TimeClip (UTC (MakeDate
    (MakeDay (YearFromTime t) (MonthFromTime t) dt) (TimeWithinDay t))).

Definition setMonth (d : Date) (month : option Z) : Date :=
  t0 ← d; mo ← month;
  let t := LocalTime t0 in
  TimeClip (UTC (MakeDate
    (MakeDay (YearFromTime t) mo (DateFromTime t)) (TimeWithinDay t))).

Definition setFullYear (d : Date) (year : option Z) : Date :=
  y ← year;
  let t := match d with Some t0 => LocalTime t0 | None => 0 end in
  TimeClip (UTC (MakeDate
    (MakeDay y (MonthFromTime t) (DateFromTime t)) (TimeWithinDay t))).

Definition isoYear (y : Z) : string :=
  if (0 <=? y) && (y <=? 9999) then pad 4 y
  else (if y <? 0 then "-" else "+") +:+ pad 6 (Z.abs y).

(** [Date.prototype.toISOString]: the UTC fields; throws on an invalid
    date. *)
Definition toISOString (d : Date) : result string :=
  match d with
  | None => Throw (RangeError "Invalid time value")
  | Some t =>
      Ok (isoYear (YearFromTime t) +:+ "-" +:+
          pad 2 (MonthFromTime t + 1) +:+ "-" +:+
          pad 2 (DateFromTime t) +:+ "T" +:+
          pad 2 (HourFromTime t) +:+ ":" +:+
          pad 2 (MinFromTime t) +:+ ":" +:+
          pad 2 (SecFromTime t) +:+ "." +:+
          pad 3 (msFromTime t) +:+ "Z")
  end.

(** [Date.prototype.toTimeString]: the local clock, then the zone
    offset.  The zone name that a host may append in parentheses is
    left out. *)
Definition toTimeString (d : Date) : string :=
  match d with
  | None => "Invalid Date"
  | Some t0 =>
      let t := LocalTime t0 in
      pad 2 (HourFromTime t) +:+ ":" +:+
      pad 2 (MinFromTime t) +:+ ":" +:+
      pad 2 (SecFromTime t) +:+ " GMT" +:+
      (if tza t0 true <? 0 then "-" else "+") +:+
      pad 2 (HourFromTime (Z.abs (tza t0 true))) +:+
      pad 2 (MinFromTime (Z.abs (tza t0 true)))
  end.

End LocalZone.

(** [Date.UTC(year, month, date, hours, minutes)], to write instants. *)
Definition utc (year month date hours minutes : Z) : Z :=
  MakeDate (MakeDay year month date) (MakeTime hours minutes 0 0).

End JSDate.

(** ** src/utils/timeUtils.ts *)

Module TimeUtils.
Import CodeUnit RegExp JSString JSDate.

Record TimeCalculation : Type := {
  date : string; (* YYYY-MM-DD format *)
  time : string  (* HH:MM format (24-hour) *)
}.

(** [(minute|minutes|hour|hours|day|days|week|weeks|month|months|year|years)] *)
Definition units : regex :=
  Group (alt (Lit "minute")
    [Lit "minutes"; Lit "hour"; Lit "hours"; Lit "day"; Lit "days";
     Lit "week"; Lit "weeks"; Lit "month"; Lit "months"; Lit "year";
     Lit "years"]).

(** [/in\s+(\d+)\s+(minute|...|years)/] *)
Definition amountUnitPattern : pattern :=
  Pattern
    (cat [Lit "in"; Plus isSpace; Group (Plus isDigit); Plus isSpace; units])
    false.

(** [/\bin\s+\d+\s+(minute|...|years)\b/i] *)
Definition inPattern : pattern :=
  Pattern
    (cat [WordB; Lit "in"; Plus isSpace; Plus isDigit; Plus isSpace; units;
          WordB])
    true.

(** [/\b\d+\s+(minute|...|years)\s+from\s+now\b/i] *)
Definition fromNowPattern : pattern :=
  Pattern
    (cat [WordB; Plus isDigit; Plus isSpace; units; Plus isSpace;
          Lit "from"; Plus isSpace; Lit "now"; WordB])
    true.

(** [/\b(tomorrow|next\s+week|next\s+month|next\s+year)\b/i] *)
Definition wordPattern : pattern :=
  Pattern
    (cat [WordB;
          Group (alt (Lit "tomorrow")
            [cat [Lit "next"; Plus isSpace; Lit "week"];
             cat [Lit "next"; Plus isSpace; Lit "month"];
             cat [Lit "next"; Plus isSpace; Lit "year"]]);
          WordB])
    true.

Definition oneOf (u : string) (names : list string) : bool :=
  existsb (String.eqb u) names.

Definition plus (a : option Z) (b : Z) : option Z := (fun x => x + b) <$> a.

Section Resolver.

(** The host's local time zone. *)
Variable tza : zone.

(** [baseDate] is the argument when there is one and the clock's
    [new Date()] otherwise; the caller passes either. *)
Definition calculateRelativeTime (relativeExpression : string)
  (baseDate : Date) : result TimeCalculation :=
  let now : Date := baseDate in
  let lowerExpression := trim (toLowerCase relativeExpression) in
  match match_ lowerExpression amountUnitPattern with
  | None =>
      d ← toISOString now;
      Ok {| date := splitHead "T" d;
            time := sliceTo 5 (toTimeString tza now) |}
  | Some mt =>
      let amount := parseInt (default "" (mt !! 1%nat)) in
      let unit := default "" (mt !! 2%nat) in
      let targetDate : Date := now in
      let targetDate :=
        if oneOf unit ["minute"; "minutes"] then
          setMinutes tza targetDate (plus (getMinutes tza targetDate) amount)
        else if oneOf unit ["hour"; "hours"] then
          setHours tza targetDate (plus (getHours tza targetDate) amount)
        else if oneOf unit ["day"; "days"] then
          setDate tza targetDate (plus (getDate tza targetDate) amount)
        else if oneOf unit ["week"; "weeks"] then
          setDate tza targetDate
            (plus (getDate tza targetDate) (amount * 7))
        else if oneOf unit ["month"; "months"] then
          setMonth tza targetDate (plus (getMonth tza targetDate) amount)
        else if oneOf unit ["year"; "years"] then
          setFullYear tza targetDate
            (plus (getFullYear tza targetDate) amount)
        else targetDate in
      d ← toISOString targetDate;
      Ok {| date := splitHead "T" d;
            time := sliceTo 5 (toTimeString tza targetDate) |}
  end.

(** [clock] is the instant that [new Date()] reads. *)
Definition getCurrentDateTime (clock : Date) : result TimeCalculation :=
  let now := clock in
  d ← toISOString now;
  Ok {| date := splitHead "T" d;
        time := sliceTo 5 (toTimeString tza now) |}.

End Resolver.

Definition hasRelativeTimeExpression (text : string) : bool :=
  let relativeTimePatterns := [inPattern; fromNowPattern; wordPattern] in
  existsb (fun pat => test pat text) relativeTimePatterns.

Fixpoint firstMatch (pats : list pattern) (text : string) : option string :=
  match pats with
  | [] => None
  | pat :: pats' =>
      match match_ text pat with
      | Some mt => Some (default "" (mt !! 0%nat))
      | None => firstMatch pats' text
      end
  end.

Definition extractRelativeTimeExpression (text : string) : option string :=
  let relativeTimePatterns := [inPattern; fromNowPattern] in
  firstMatch relativeTimePatterns text.

End TimeUtils.

(** ** Values out of [JSON.parse]

    Numbers are the host's doubles; the pipeline only asks whether one is
    truthy and how it prints, so the number type and these two operations
    are left to the host. *)

Module JSValue.

Section Values.

Variable number : Type.

Inductive value : Type :=
| VNull
| VBool (b : bool)
| VNum (n : number)
| VStr (s : string)
| VArr (elems : list value)
| VObj (props : list (string * value)).

(** false for 0, -0 and NaN *)
Variable numberToBoolean : number -> bool.
(** Number::toString *)
Variable numberToString : number -> string.

(** [ToBoolean]; [None] is [undefined], the value of a missing
    property. *)
Definition ToBoolean (v : option value) : bool :=
  match v with
  | None | Some VNull => false
  | Some (VBool b) => b
  | Some (VNum n) => numberToBoolean n
  | Some (VStr s) => negb (String.eqb s "")
  | Some (VArr _) | Some (VObj _) => true
  end.

(** [ToString].  An array prints as its elements joined by commas, with
    [null] elements empty.  A parsed object prints through
    [Object.prototype.toString] unless it has a property of its own named
    toString: that property is no function, [valueOf] returns no
    primitive, and the conversion throws. *)
Fixpoint ToString (v : value) : result string :=
  match v with
  | VNull => Ok "null"
  | VBool b => Ok (if b then "true" else "false")
  | VNum n => Ok (numberToString n)
  | VStr s => Ok s
  | VArr elems =>
      (fix join (l : list value) : result string :=
         match l with
         | [] => Ok ""
         | e :: l' =>
             match (match e with VNull => Ok "" | _ => ToString e end) with
             | Throw err => Throw err
             | Ok s =>
                 match l' with
                 | [] => Ok s
                 | _ :: _ =>
                     match join l' with
                     | Throw err => Throw err
                     | Ok r => Ok (s +:+ "," +:+ r)
                     end
                 end
             end
         end) elems
  | VObj props =>
      if existsb (fun kv => String.eqb (fst kv) "toString") props
      then Throw (TypeError "Cannot convert object to primitive value")
      else Ok "[object Object]"
  end.

Definition ToStringOpt (v : option value) : result string :=
  match v with Some x => ToString x | None => Ok "undefined" end.

(** [names.includes(v)] for an array of strings: strict equality, so
    only a string can be found. *)
Definition includes (names : list string) (v : option value) : bool :=
  match v with
  | Some (VStr s) => existsb (String.eqb s) names
  | _ => false
  end.

End Values.

Arguments ToBoolean {number} numberToBoolean v.
Arguments ToString {number} numberToString v.
Arguments ToStringOpt {number} numberToString v.
Arguments includes {number} names v.
Arguments VNull {number}.
Arguments VBool {number} b.
Arguments VNum {number} n.
Arguments VStr {number} s.
Arguments VArr {number} elems.
Arguments VObj {number} props.

End JSValue.

(** ** src/services/geminiService.ts *)

Module GeminiService.
Import CodeUnit RegExp JSDate JSValue TimeUtils.

(** [/\{[\s\S]*\}/] *)
Definition jsonPattern : pattern :=
  Pattern (cat [Lit "{"; Star isAny; Lit "}"]) false.

(** [/^\d{4}-\d{2}-\d{2}$/] *)
Definition dateRegex : pattern :=
  Pattern
    (cat [Bol; Rep 4 isDigit; Lit "-"; Rep 2 isDigit; Lit "-";
          Rep 2 isDigit; Eol])
    false.

(** [/^\d{2}:\d{2}$/] *)
Definition timeRegex : pattern :=
  Pattern (cat [Bol; Rep 2 isDigit; Lit ":"; Rep 2 isDigit; Eol]) false.

Record AIResponse (data_t : Type) : Type := {
  success : bool;
  data : option data_t;
  error : option string
}.
Arguments success {data_t} _.
Arguments data {data_t} _.
Arguments error {data_t} _.

Section Service.

Variable number : Type.
Variable numberToBoolean : number -> bool.
Variable numberToString : number -> string.

(** The host's local time zone. *)
Variable tza : zone.

(** [JSON.parse] on a span that opens with a brace: an object, or a
    [SyntaxError]. *)
Variable JSON_parse : string -> result (gmap string (value number)).

(** A candidate record: a plain object, read and written by property
    name. *)
Abbreviation ScheduleData := (gmap string (value number)).

(** [postProcessScheduleData] assigns to the object it is given and
    returns that same object; [clock] is the instant that the
    resolver's default [new Date()] reads. *)
Definition postProcessScheduleData (scheduleData : ScheduleData)
  (userPrompt : string) (clock : Date) : result ScheduleData :=
  if hasRelativeTimeExpression userPrompt then
    match extractRelativeTimeExpression userPrompt with
    | Some relativeExpression =>
        if negb (String.eqb relativeExpression "") then
          calculatedTime ←
            calculateRelativeTime tza relativeExpression clock;
          let scheduleData :=
            <["date" := VStr (date calculatedTime)]> scheduleData in
          let scheduleData :=
            <["time" := VStr (time calculatedTime)]> scheduleData in
          Ok scheduleData
        else Ok scheduleData
    | None => Ok scheduleData
    end
  else Ok scheduleData.

(** The first required field that is falsy, if any. *)
Fixpoint firstMissing (fields : list string) (data : ScheduleData)
  : option string :=
  match fields with
  | [] => None
  | field :: fields' =>
      if negb (ToBoolean numberToBoolean (data !! field)) then Some field
      else firstMissing fields' data
  end.

(** [validateScheduleData]: the boolean it returns and the line it writes
    with [logger.error] before returning false.  The template literals and
    [test] convert their argument to a string, which can throw. *)
Definition validateScheduleData (data : ScheduleData)
  : result (bool * option string) :=
  let requiredFields := ["type"; "title"; "date"; "time"] in
  match firstMissing requiredFields data with
  | Some field => Ok (false, Some ("Missing required field: " +:+ field))
  | None =>
      let validTypes := ["meeting"; "reminder"; "task"; "appointment"] in
      if negb (includes validTypes (data !! "type")) then
        type ← ToStringOpt numberToString (data !! "type");
        Ok (false, Some ("Invalid type: " +:+ type))
      else if ToBoolean numberToBoolean (data !! "priority")
              && negb (includes ["low"; "medium"; "high"]
                         (data !! "priority")) then
        priority ← ToStringOpt numberToString (data !! "priority");
        Ok (false, Some ("Invalid priority: " +:+ priority))
      else
        date ← ToStringOpt numberToString (data !! "date");
        if negb (test dateRegex date) then
          Ok (false, Some ("Invalid date format: " +:+ date))
        else
          time ← ToStringOpt numberToString (data !! "time");
          if negb (test timeRegex time) then
            Ok (false, Some ("Invalid time format: " +:+ time))
          else Ok (true, None)
  end.

(** The body of the [try] block.  [reply] is the outcome of the model
    call on the prompt built for [userPrompt]: the text of the reply,
    or the exception the call raised. *)
Definition tryBlock (userPrompt : string) (reply : result string)
  (clock : Date) : result ScheduleData :=
  text ← reply;
  match match_ text jsonPattern with
  | None => Throw (Error "No valid JSON found in AI response")
  | Some jsonMatch =>
      let jsonString := default "" (jsonMatch !! 0%nat) in
      scheduleData ← JSON_parse jsonString;
      processedData ←
        postProcessScheduleData scheduleData userPrompt clock;
      verdict ← validateScheduleData processedData;
      if negb (fst verdict) then
        Throw (Error "Invalid schedule data structure")
      else Ok processedData
  end.

Definition processSchedulePrompt (userPrompt : string)
  (reply : result string) (clock : Date) : AIResponse ScheduleData :=
  match tryBlock userPrompt reply clock with
  | Ok processedData =>
      {| success := true; data := Some processedData; error := None |}
  | Throw e =>
      {| success := false; data := None; error := Some (message e) |}
  end.

End Service.

End GeminiService.

(** ** The specification's reading of the reply scan *)

Module SpecReading.

Definition isOpen (c : ascii) : bool := Ascii.eqb c "{".
Definition isClose (c : ascii) : bool := Ascii.eqb c "}".

(** After an opening brace at nesting [depth]: the code units up to and
    including the brace that closes it. *)
Fixpoint balanced (depth : nat) (l : list ascii) : option (list ascii) :=
  match l with
  | [] => None
  | c :: tl =>
      if isOpen c then cons c <$> balanced (S depth) tl
      else if isClose c then
        match depth with
        | O => Some [c]
        | S d => cons c <$> balanced d tl
        end
      else cons c <$> balanced depth tl
  end.

(** "The first balanced [{...}] object substring in the reply". *)
Fixpoint firstBalanced (l : list ascii) : option (list ascii) :=
  match l with
  | [] => None
  | c :: tl =>
      if isOpen c then
        match balanced 0 tl with
        | Some s => Some (c :: s)
        | None => firstBalanced tl
        end
      else firstBalanced tl
  end.

Definition firstBalancedObject (text : string) : option string :=
  string_of_list_ascii <$> firstBalanced (list_ascii_of_string text).

(** What the pattern of the source selects: from the first opening brace
    through the last closing brace after it. *)
Fixpoint throughLast (l : list ascii) : option (list ascii) :=
  match l with
  | [] => None
  | c :: tl =>
      match throughLast tl with
      | Some s => Some (c :: s)
      | None => if isClose c then Some [c] else None
      end
  end.

Fixpoint firstToLast (l : list ascii) : option (list ascii) :=
  match l with
  | [] => None
  | c :: tl =>
      if isOpen c then cons c <$> throughLast tl else firstToLast tl
  end.

End SpecReading.

(** ** A concrete host, for evaluating the pipeline on examples *)

Module Host.
Import JSValue.

(** Integer-valued numbers below 10^21 in magnitude, which print as
    plain decimal digits. *)
Definition number : Type := Z.
Definition numberToBoolean (n : number) : bool := negb (n =? 0).
Definition numberToString (n : number) : string :=
  DecimalString.NilZero.string_of_int (Z.to_int n).

(** India Standard Time, UTC+05:30 all year. *)
Definition IST : Z := 19800000.

(** Writes a JSON text with apostrophes standing for its double quotes. *)
Definition json (s : string) : string :=
  string_of_list_ascii
    (map (fun c => if Ascii.eqb c "'" then ascii_of_nat 34 else c)
       (list_ascii_of_string s)).

Fixpoint lookupText (table : list (string * gmap string (value number)))
  (s : string) : result (gmap string (value number)) :=
  match table with
  | [] => Throw (SyntaxError "Unexpected token")
  | (text, obj) :: table' =>
      if String.eqb s text then Ok obj else lookupText table' s
  end.

Definition callSarahText : string :=
  json "{'type':'reminder','title':'Call Sarah','date':'2024-01-15','time':'09:00'}".
Definition callSarah : gmap string (value number) :=
  <["type" := VStr "reminder"]> (<["title" := VStr "Call Sarah"]>
    (<["date" := VStr "2024-01-15"]> (<["time" := VStr "09:00"]> ∅))).

Definition noTitleText : string :=
  json "{'type':'task','date':'2024-01-15','time':'09:00'}".
Definition noTitle : gmap string (value number) :=
  <["type" := VStr "task"]>
    (<["date" := VStr "2024-01-15"]> (<["time" := VStr "09:00"]> ∅)).

Definition birthdayText : string :=
  json "{'type':'birthday','title':'Party','date':'2024-01-15','time':'09:00'}".
Definition birthday : gmap string (value number) :=
  <["type" := VStr "birthday"]> (<["title" := VStr "Party"]>
    (<["date" := VStr "2024-01-15"]> (<["time" := VStr "09:00"]> ∅))).

Definition standupText : string :=
  json "{'type':'meeting','title':'Standup','date':'2024-01-16','time':'10:00'}".
Definition standup : gmap string (value number) :=
  <["type" := VStr "meeting"]> (<["title" := VStr "Standup"]>
    (<["date" := VStr "2024-01-16"]> (<["time" := VStr "10:00"]> ∅))).

(** A reply made of two objects. *)
Definition twoObjects : string := callSarahText +:+ " or " +:+ standupText.

(** 2024-01-15T08:50Z *)
Definition morning : JSDate.Date := Some (JSDate.utc 2024 0 15 8 50).

(** [JSON.parse] on the texts above; every other span that the examples
    hand to it is not a JSON text. *)
Definition JSON_parse : string -> result (gmap string (value number)) :=
  lookupText
    [(callSarahText, callSarah); (noTitleText, noTitle);
     (birthdayText, birthday); (standupText, standup)].

End Host.

(** ** The five checks of the validator, by name *)

Module Checks.
Import RegExp JSValue GeminiService.

Section Checks.

Context {number : Type}.
Variable numberToBoolean : number -> bool.
Variable numberToString : number -> string.

Implicit Types data : gmap string (value number).

Definition requiredOk data : bool :=
  ToBoolean numberToBoolean (data !! "type")
  && ToBoolean numberToBoolean (data !! "title")
  && ToBoolean numberToBoolean (data !! "date")
  && ToBoolean numberToBoolean (data !! "time").

Definition typeOk data : bool :=
  includes ["meeting"; "reminder"; "task"; "appointment"] (data !! "type").

Definition priorityOk data : bool :=
  negb (ToBoolean numberToBoolean (data !! "priority"))
  || includes ["low"; "medium"; "high"] (data !! "priority").

(** The text that a pattern is tested on: the property as a string,
    when the conversion goes through. *)
Definition textOf data (field : string) : result string :=
  ToStringOpt numberToString (data !! field).

Definition dateOk data : bool :=
  match textOf data "date" with
  | Ok date => test dateRegex date
  | Throw _ => false
  end.

Definition timeOk data : bool :=
  match textOf data "time" with
  | Ok time => test timeRegex time
  | Throw _ => false
  end.

(** The validator returns true. *)
Definition accepts data : Prop :=
  validateScheduleData number numberToBoolean numberToString data
  = Ok (true, None).

(** The validator returns false after logging [line]. *)
Definition rejectsWith data (line : string) : Prop :=
  validateScheduleData number numberToBoolean numberToString data
  = Ok (false, Some line).

(** The properties that the validator reads. *)
Definition inspected : list string :=
  ["type"; "title"; "date"; "time"; "priority"].

(** A candidate with the four required fields and nothing else. *)
Definition minimal (type title date time : string)
  : gmap string (value number) :=
  <["type" := VStr type]> (<["title" := VStr title]>
    (<["date" := VStr date]> (<["time" := VStr time]> ∅))).

End Checks.

End Checks.

(** ** Calendar date and clock of an instant, as text *)

Module Calendar.
Import JSString JSDate.

(** The calendar date of the time value [t] read as it stands: the UTC
    date of the instant [t]. *)
Definition dateOf (t : Z) : string :=
  isoYear (YearFromTime t) +:+ "-" +:+ pad 2 (MonthFromTime t + 1) +:+ "-" +:+
  pad 2 (DateFromTime t).

(** The 24-hour clock of the time value [t] read as it stands. *)
Definition clockOf (t : Z) : string :=
  pad 2 (HourFromTime t) +:+ ":" +:+ pad 2 (MinFromTime t).

(** Date and clock on the local wall clock of the zone [tza]. *)
Definition localDateOf (tza : zone) (t : Z) : string :=
  dateOf (LocalTime tza t).
Definition localClockOf (tza : zone) (t : Z) : string :=
  clockOf (LocalTime tza t).

(** What the resolver prints for a target time value: the UTC date and
    the local clock, or a [RangeError] for NaN. *)
Definition printed (tza : zone) (target : Date)
  : result TimeUtils.TimeCalculation :=
  match target with
  | Some t' =>
      Ok {| TimeUtils.date := dateOf t';
            TimeUtils.time := localClockOf tza t' |}
  | None => Throw (RangeError "Invalid time value")
  end.

End Calendar.

(** ** Quantified phrases, written out *)

Module Phrases.
Import CodeUnit.

Definition unitNames : list string :=
  ["minute"; "minutes"; "hour"; "hours"; "day"; "days"; "week"; "weeks";
   "month"; "months"; "year"; "years"].

(** A non-empty run of decimal digits. *)
Definition numeral (ds : list ascii) : Prop :=
  ds ≠ [] /\ Forall (fun c => isDigit c = true) ds.

(** "<N> <unit> from now" *)
Definition fromNowPhrase (ds : list ascii) (unit : string) : string :=
  string_of_list_ascii
    (ds ++ list_ascii_of_string (" " +:+ unit +:+ " from now")).

(** "in <N> <unit>" *)
Definition inPhrase (ds : list ascii) (unit : string) : string :=
  string_of_list_ascii
    (list_ascii_of_string "in " ++ ds ++ list_ascii_of_string (" " +:+ unit)).

(** Amounts of minutes for which the host's sums in [MakeTime] stay below
    2^53, where doubles are exact. *)
Definition exactMinutes (n : Z) : Prop :=
  0 <= n /\ n * JSDate.msPerMinute + JSDate.msPerDay <= 2 ^ 53.

(** The code unit before the position reached after reading [ds]. *)
Definition after (p : option ascii) (ds : list ascii) : option ascii :=
  match last ds with Some c => Some c | None => p end.

End Phrases.

(** ** Proof steps that recur *)

Module Tactics.
Import RegExp JSValue GeminiService Checks Phrases.

(** Case analysis along the checks of the validator. *)
Ltac by_cases numberToBoolean numberToString data :=
  unfold accepts, rejectsWith, validateScheduleData, Checks.requiredOk,
    typeOk, Checks.priorityOk, Checks.dateOk, Checks.timeOk, textOf in *;
  cbn [firstMissing] in *;
  repeat match goal with H : _ = _ |- _ => revert H end;
  repeat
    (match goal with
     | |- context [ToBoolean numberToBoolean (data !! ?f)] =>
         destruct (ToBoolean numberToBoolean (data !! f))
     | |- context [includes ?l (data !! ?f)] =>
         destruct (includes l (data !! f))
     | |- context [ToStringOpt numberToString (data !! ?f)] =>
         destruct (ToStringOpt numberToString (data !! f))
     | |- context [test ?r ?x] => destruct (test r x)
     end;
     cbn [mbind result_bind negb andb orb fst snd];
     try (intros; first [congruence | reflexivity | tauto])).

(** One case for each element of a list, from a membership hypothesis. *)
Ltac each_member H :=
  set_unfold in H; repeat destruct H as [-> | H]; try contradiction.

(** One case for each unit name. *)
Ltac each_unit Hu := unfold unitNames in Hu; each_member Hu.

(** Writes out the code units of a closed string. *)
Ltac eval_tail :=
  match goal with
  | |- context [list_ascii_of_string ?s] =>
      let l := eval vm_compute in (list_ascii_of_string s) in
      change (list_ascii_of_string s) with l
  end.

End Tactics.

(** ** Units of the resolver, by length *)

Module Units.
Import JSDate TimeUtils.

(** The alternative of the pattern that a unit name is read as: the
    pattern lists each singular before its plural and has no boundary
    after the unit, so a plural is read as its singular. *)
Definition singular (u : string) : string :=
  let l := list_ascii_of_string u in
  match last l with
  | Some c => if Ascii.eqb c "s" then string_of_list_ascii (removelast l) else u
  | None => u
  end.

(** Milliseconds in the units of fixed length. *)
Definition unitLength (u : string) : option Z :=
  if oneOf u ["minute"; "minutes"] then Some msPerMinute
  else if oneOf u ["hour"; "hours"] then Some msPerHour
  else if oneOf u ["day"; "days"] then Some msPerDay
  else if oneOf u ["week"; "weeks"] then Some (7 * msPerDay)
  else None.

(** Amounts for which the host's sums stay below 2^53, where doubles are
    exact. *)
Definition exactSum (n ms : Z) : Prop :=
  0 <= n /\ n * ms + msPerDay <= 2 ^ 53.

(** The instant that the [switch] of [calculateRelativeTime] reaches. *)
Definition target (tza : zone) (unit : string) (amount : Z) (now : Date)
  : Date :=
  if oneOf unit ["minute"; "minutes"] then
    setMinutes tza now (plus (getMinutes tza now) amount)
  else if oneOf unit ["hour"; "hours"] then
    setHours tza now (plus (getHours tza now) amount)
  else if oneOf unit ["day"; "days"] then
    setDate tza now (plus (getDate tza now) amount)
  else if oneOf unit ["week"; "weeks"] then
    setDate tza now (plus (getDate tza now) (amount * 7))
  else if oneOf unit ["month"; "months"] then
    setMonth tza now (plus (getMonth tza now) amount)
  else if oneOf unit ["year"; "years"] then
    setFullYear tza now (plus (getFullYear tza now) amount)
  else now.

(** The local time [x] is one that the clock of the zone shows: the
    instant that the zone gives for [x] reads [x] again.  This fails only
    for a local time that a transition of the zone skips. *)
Definition shown (tza : zone) (x : Z) : Prop :=
  LocalTime tza (UTC tza x) = x.

(** Minutes since midnight of the time value [t] read as it stands. *)
Definition minuteOfDay (t : Z) : Z := HourFromTime t * 60 + MinFromTime t.

(** The clock text of a minute of the day. *)
Definition clockAt (m : Z) : string :=
  JSString.pad 2 (m / 60) +:+ ":" +:+ JSString.pad 2 (m mod 60).

(** Days in month [mn] (0 to 11) of a year that is leap ([leap] = 1) or
    not ([leap] = 0). *)
Definition daysInMonth (mn leap : Z) : Z :=
  match mn with
  | 1 => 28 + leap
  | 3 | 5 | 8 | 10 => 30
  | _ => 31
  end.

Definition leapOf (y : Z) : Z := if isLeap y then 1 else 0.

End Units.

(** ** Further hosts and replies, for examples *)

Module Hosts.
Import JSDate JSValue Host.

(** United States Eastern Time in 2024: UTC-05:00, and UTC-04:00 from
    10 March 07:00 UTC to 3 November 06:00 UTC.  On the local clock the
    hour from 02:00 on 10 March is skipped and the hour from 01:00 on
    3 November comes twice; at such a local time the offset before the
    transition counts. *)
Definition easternTime : zone := fun t isUTC =>
  if isUTC then
    if (utc 2024 2 10 7 0 <=? t) && (t <? utc 2024 10 3 6 0)
    then -4 * msPerHour else -5 * msPerHour
  else
    if (utc 2024 2 10 3 0 <=? t) && (t <? utc 2024 10 3 2 0)
    then -4 * msPerHour else -5 * msPerHour.

(** A reply whose type is an object with a property of its own named
    toString. *)
Definition objectTypeText : string :=
  json "{'type':{'toString':1},'title':'Call Sarah','date':'2024-01-15','time':'09:00'}".
Definition objectType : gmap string (value number) :=
  <["type" := VObj [("toString", VNum 1)]]> (<["title" := VStr "Call Sarah"]>
    (<["date" := VStr "2024-01-15"]> (<["time" := VStr "09:00"]> ∅))).

(** [JSON.parse] on that text. *)
Definition parseObjectType : string -> result (gmap string (value number)) :=
  lookupText [(objectTypeText, objectType)].

End Hosts.

(** ** The texts that the validator's patterns accept, written out *)

Module Shapes.
Import CodeUnit.

(** Four digits, a hyphen, two digits, a hyphen, two digits. *)
Definition isDateShape (s : string) : bool :=
  match list_ascii_of_string s with
  | [y1; y2; y3; y4; h1; m1; m2; h2; d1; d2] =>
      isDigit y1 && isDigit y2 && isDigit y3 && isDigit y4
      && Ascii.eqb "-" h1 && isDigit m1 && isDigit m2
      && Ascii.eqb "-" h2 && isDigit d1 && isDigit d2
  | _ => false
  end.

(** Two digits, a colon, two digits. *)
Definition isTimeShape (s : string) : bool :=
  match list_ascii_of_string s with
  | [h1; h2; c; m1; m2] =>
      isDigit h1 && isDigit h2 && Ascii.eqb ":" c && isDigit m1 && isDigit m2
  | _ => false
  end.

(** [s] with the code units [before] in front and [behind] at the end. *)
Definition padded (before : list ascii) (s : string) (behind : list ascii)
  : string :=
  string_of_list_ascii (before ++ list_ascii_of_string s ++ behind).

Definition blank (ws : list ascii) : Prop :=
  Forall (fun c => isSpace c = true) ws.

(** A property that is missing or holds [null], a boolean, a number or a
    string. *)
Definition primitive {number : Type} (v : option (JSValue.value number))
  : bool :=
  match v with
  | Some (JSValue.VArr _) | Some (JSValue.VObj _) => false
  | _ => true
  end.

(** A text against an anchored pattern of classes and literals: one
    case for each length up to [n], and in each the code units in turn,
    until one is refused or the text ends. *)
Tactic Notation "anchored" ident(l) integer(n) :=
  do n (try (destruct l as [| ? l]));
  repeat
    (cbn [RegExp.rest RegExp.step RegExp.rep RegExp.lit RegExp.caps
          RegExp.prev];
     unfold eqb_cu;
     match goal with
     | |- context [if ?b then _ else _] =>
         match type of b with bool => destruct b end
     end;
     try reflexivity);
  try reflexivity.

End Shapes.

(** ** Induction on parsed values, through the elements of arrays *)

Module ValueInduction.
Import JSValue.

Section Induction.

Context {number : Type}.
Variable P : value number -> Prop.
Hypothesis Hnull : P VNull.
Hypothesis Hbool : forall b, P (VBool b).
Hypothesis Hnum : forall n, P (VNum n).
Hypothesis Hstr : forall s, P (VStr s).
Hypothesis Harr : forall elems, Forall P elems -> P (VArr elems).
Hypothesis Hobj : forall props, P (VObj props).

Fixpoint value_elems_ind (v : value number) : P v :=
  match v with
  | VNull => Hnull
  | VBool b => Hbool b
  | VNum n => Hnum n
  | VStr s => Hstr s
  | VArr elems =>
      Harr elems
        ((fix all (l : list (value number)) : Forall P l :=
            match l with
            | [] => @List.Forall_nil _ P
            | x :: l' => @List.Forall_cons _ P x l' (value_elems_ind x) (all l')
            end) elems)
  | VObj props => Hobj props
  end.

End Induction.

End ValueInduction.

(** ** The phrases that the extraction patterns select *)

Module Selected.
Import CodeUnit Phrases Shapes.

(** Every code unit below 256. *)
Definition allUnits : list ascii := map ascii_of_nat (seq 0 256).

(** [cs] is the text [s] up to the case of letters, as a pattern with the
    [i] flag compares them. *)
Definition spells (s : string) (cs : list ascii) : Prop :=
  Forall2 (fun p c => eqb_cu true p c = true) (list_ascii_of_string s) cs.

(** A non-empty run of white space. *)
Definition gap (ws : list ascii) : Prop := ws ≠ [] /\ blank ws.

(** "in", white space, the digits [ds], white space and the unit [u], in
    any letter case. *)
Definition inShape (e : list ascii) (ds : list ascii) (u : string) : Prop :=
  exists cin ws1 ws2 cu,
    e = cin ++ ws1 ++ ds ++ ws2 ++ cu
    /\ spells "in" cin /\ gap ws1 /\ numeral ds /\ gap ws2 /\ spells u cu.

(** The digits [ds], white space, the unit [u], white space, "from",
    white space and "now", in any letter case. *)
Definition fromNowShape (e : list ascii) (ds : list ascii) (u : string)
  : Prop :=
  exists ws1 cu ws2 cfrom ws3 cnow,
    e = ds ++ ws1 ++ cu ++ ws2 ++ cfrom ++ ws3 ++ cnow
    /\ numeral ds /\ gap ws1 /\ spells u cu /\ gap ws2
    /\ spells "from" cfrom /\ gap ws3 /\ spells "now" cnow.

End Selected.

(** * Properties *)

(** ** Detection and extraction of phrases *)

Module TimeUtilsFacts.
Import TimeUtils.

(** C9: "Remind me tomorrow" is detected but not extracted; "in 2 hours"
    is detected, and extraction on "Call me in 2 hours" returns the
    substring "in 2 hours". *)
Theorem detect_versus_extract :
  hasRelativeTimeExpression "Remind me tomorrow" = true /\
  extractRelativeTimeExpression "Remind me tomorrow" = None /\
  hasRelativeTimeExpression "in 2 hours" = true /\
  extractRelativeTimeExpression "Call me in 2 hours" = Some "in 2 hours".
Proof. repeat split; vm_compute; reflexivity. Qed.

End TimeUtilsFacts.

(** ** The validator *)

Module ValidatorFacts.
Import RegExp JSValue GeminiService Checks Tactics.

Section Validator.

Context {number : Type}.
Variable numberToBoolean : number -> bool.
Variable numberToString : number -> string.

Abbreviation validate :=
  (validateScheduleData number numberToBoolean numberToString).
Abbreviation truthy := (ToBoolean numberToBoolean).
Abbreviation text := (textOf numberToString).
Abbreviation requiredOk := (Checks.requiredOk numberToBoolean).
Abbreviation priorityOk := (Checks.priorityOk numberToBoolean).
Abbreviation dateOk := (Checks.dateOk numberToString).
Abbreviation timeOk := (Checks.timeOk numberToString).
Abbreviation accepts := (Checks.accepts numberToBoolean numberToString).
Abbreviation rejectsWith :=
  (Checks.rejectsWith numberToBoolean numberToString).

Implicit Types data : gmap string (value number).

(** The validator accepts exactly when the five checks pass. *)
Lemma accepts_iff data :
  accepts data <->
  requiredOk data = true /\ typeOk data = true /\ priorityOk data = true
  /\ dateOk data = true /\ timeOk data = true.
Proof.
  split.
  - intros H. repeat split; by_cases numberToBoolean numberToString data.
  - intros (H1 & H2 & H3 & H4 & H5).
    by_cases numberToBoolean numberToString data.
Qed.

(** When it returns true it has logged nothing. *)
Lemma validate_true_None data verdict :
  validate data = Ok verdict -> fst verdict = true -> verdict = (true, None).
Proof.
  intros H. by_cases numberToBoolean numberToString data;
    intros [= <-]; cbn; congruence.
Qed.

(** When it returns false it has logged a line. *)
Lemma validate_false_line data verdict :
  validate data = Ok verdict -> fst verdict = false ->
  exists line, verdict = (false, Some line).
Proof.
  intros H. by_cases numberToBoolean numberToString data;
    intros [= <-]; cbn; intros; try discriminate; eauto.
Qed.

Lemma reject_falsy_required data field :
  field ∈ ["type"; "title"; "date"; "time"] ->
  truthy (data !! field) = false -> ~ accepts data.
Proof.
  intros Hin Hf Hacc. apply accepts_iff in Hacc as (Hr & _).
  unfold Checks.requiredOk in Hr.
  repeat (apply andb_prop in Hr as [Hr ?]).
  each_member Hin; congruence.
Qed.

Lemma reject_type data : typeOk data = false -> ~ accepts data.
Proof. intros Hf Hacc. apply accepts_iff in Hacc as (_ & ? & _). congruence. Qed.

Lemma reject_date data : dateOk data = false -> ~ accepts data.
Proof.
  intros Hf Hacc. apply accepts_iff in Hacc as (_ & _ & _ & ? & _).
  congruence.
Qed.

Lemma reject_time data : timeOk data = false -> ~ accepts data.
Proof.
  intros Hf Hacc. apply accepts_iff in Hacc as (_ & _ & _ & _ & ?).
  congruence.
Qed.

Lemma accept_minimal (type title date time : string) :
  type ∈ ["meeting"; "reminder"; "task"; "appointment"] ->
  title ≠ "" ->
  test dateRegex date = true -> test timeRegex time = true ->
  accepts (minimal type title date time).
Proof.
  intros Hty Hti Hd Ht.
  assert (Hnd : date ≠ "") by (intros ->; vm_compute in Hd; discriminate).
  assert (Hnt : time ≠ "") by (intros ->; vm_compute in Ht; discriminate).
  assert (Hny : type ≠ "")
    by (intros ->; set_unfold in Hty; intuition discriminate).
  unfold Checks.accepts, validateScheduleData, minimal; cbn [firstMissing].
  rewrite !lookup_insert; repeat (case_decide; try congruence); cbn.
  rewrite lookup_empty.
  apply String.eqb_neq in Hti, Hnd, Hnt, Hny.
  rewrite Hti, Hnd, Hnt, Hny; cbn.
  assert (Hin : existsb (String.eqb type)
                  ["meeting"; "reminder"; "task"; "appointment"] = true).
  { apply existsb_exists. exists type. split.
    - apply list_elem_of_In, Hty.
    - apply String.eqb_refl. }
  cbn in Hin. rewrite Hin; cbn.
  rewrite Hd; cbn. rewrite Ht; reflexivity.
Qed.

(** C5: the validator rejects a candidate without a non-empty title, one
    whose type is "birthday" or anything outside the four allowed, one
    whose date is "01-15-2024" or otherwise off the date pattern, and one
    whose time is off the time pattern; it accepts a candidate made of
    the four required fields alone.  The checks run in the order required
    fields, type, priority, date, time: what the validator logs, or
    throws when a value has no string form, belongs to the first check
    that fails. *)
Theorem validator_contract data :
  (truthy (data !! "title") = false -> ~ accepts data) /\
  (typeOk data = false -> ~ accepts data) /\
  (data !! "type" = Some (VStr "birthday") -> ~ accepts data) /\
  (dateOk data = false -> ~ accepts data) /\
  (data !! "date" = Some (VStr "01-15-2024") -> ~ accepts data) /\
  (timeOk data = false -> ~ accepts data) /\
  (forall type title date time : string,
     type ∈ ["meeting"; "reminder"; "task"; "appointment"] ->
     title ≠ "" ->
     test dateRegex date = true -> test timeRegex time = true ->
     data = minimal type title date time ->
     accepts data) /\
  (truthy (data !! "type") = false ->
     rejectsWith data "Missing required field: type") /\
  (truthy (data !! "type") = true -> truthy (data !! "title") = false ->
     rejectsWith data "Missing required field: title") /\
  (truthy (data !! "type") = true -> truthy (data !! "title") = true ->
   truthy (data !! "date") = false ->
     rejectsWith data "Missing required field: date") /\
  (truthy (data !! "type") = true -> truthy (data !! "title") = true ->
   truthy (data !! "date") = true -> truthy (data !! "time") = false ->
     rejectsWith data "Missing required field: time") /\
  (requiredOk data = true -> typeOk data = false ->
     validate data
     = (type ← text data "type"; Ok (false, Some ("Invalid type: " +:+ type))))
  /\
  (requiredOk data = true -> typeOk data = true ->
   priorityOk data = false ->
     validate data
     = (priority ← text data "priority";
        Ok (false, Some ("Invalid priority: " +:+ priority)))) /\
  (requiredOk data = true -> typeOk data = true ->
   priorityOk data = true -> dateOk data = false ->
     validate data
     = (date ← text data "date";
        Ok (false, Some ("Invalid date format: " +:+ date)))) /\
  (requiredOk data = true -> typeOk data = true ->
   priorityOk data = true -> dateOk data = true -> timeOk data = false ->
     validate data
     = (time ← text data "time";
        Ok (false, Some ("Invalid time format: " +:+ time)))).
Proof.
  repeat apply conj.
  - apply reject_falsy_required. set_solver.
  - apply reject_type.
  - intros H. apply reject_type. unfold typeOk. rewrite H. reflexivity.
  - apply reject_date.
  - intros H. apply reject_date. unfold Checks.dateOk, textOf. rewrite H.
    reflexivity.
  - apply reject_time.
  - intros type title date time ? ? ? ? ->. by apply accept_minimal.
  - intros. by_cases numberToBoolean numberToString data.
  - intros. by_cases numberToBoolean numberToString data.
  - intros. by_cases numberToBoolean numberToString data.
  - intros. by_cases numberToBoolean numberToString data.
  - intros. by_cases numberToBoolean numberToString data.
  - intros. by_cases numberToBoolean numberToString data.
  - intros. by_cases numberToBoolean numberToString data.
  - intros. by_cases numberToBoolean numberToString data.
Qed.

(** C10: the validator reads the properties type, title, date, time and
    priority and nothing else: two candidates that agree on these five
    get the same verdict, whatever duration, participants, location,
    category, description or metadata hold. *)
Theorem validator_inspects_five_only data data' :
  (forall field, field ∈ inspected -> data' !! field = data !! field) ->
  validate data' = validate data /\ (accepts data -> accepts data').
Proof.
  intros Hagree.
  enough (Heq : validate data' = validate data).
  { split; [exact Heq |]. unfold Checks.accepts. by rewrite Heq. }
  assert (H1 : data' !! "type" = data !! "type")
    by (apply Hagree; set_solver).
  assert (H2 : data' !! "title" = data !! "title")
    by (apply Hagree; set_solver).
  assert (H3 : data' !! "date" = data !! "date")
    by (apply Hagree; set_solver).
  assert (H4 : data' !! "time" = data !! "time")
    by (apply Hagree; set_solver).
  assert (H5 : data' !! "priority" = data !! "priority")
    by (apply Hagree; set_solver).
  unfold validateScheduleData; cbn [firstMissing].
  rewrite H1, H2, H3, H4, H5. reflexivity.
Qed.

End Validator.

End ValidatorFacts.

(** ** The reply scan *)

Module ScanFacts.
Import CodeUnit RegExp GeminiService SpecReading.

Abbreviation close := (m false (Lit "}") Some).

Lemma isClose_eq c : isClose c = true -> c = "}"%char.
Proof. unfold isClose. intros H. by apply Ascii.eqb_eq in H. Qed.

Lemma close_at p c tl cs :
  close (MState p (c :: tl) cs)
  = if isClose c then Some (MState (Some c) tl cs) else None.
Proof.
  cbn [m lit list_ascii_of_string rest]. unfold eqb_cu, isClose, step.
  rewrite (Ascii.eqb_sym "}" c).
  destruct (Ascii.eqb c "}"); reflexivity.
Qed.

Lemma throughLast_prefix l s :
  throughLast l = Some s -> l = s ++ drop (length s) l.
Proof.
  revert s. induction l as [| c tl IH]; intros s; cbn; [discriminate |].
  destruct (throughLast tl) as [s' |] eqn:E.
  - intros [= <-]. cbn. f_equal. by apply IH.
  - destruct (isClose c); [| discriminate]. intros [= <-]. reflexivity.
Qed.

(** [[\s\S]*\}] after the opening brace: greedy, so it ends at the last
    closing brace. *)
Lemma greedy_throughLast l p cs :
  greedy isAny close p l cs
  = match throughLast l with
    | Some s => Some (MState (Some "}"%char) (drop (length s) l) cs)
    | None => None
    end.
Proof.
  revert p. induction l as [| c tl IH]; intros p; [reflexivity |].
  cbn [greedy isAny throughLast]. rewrite IH.
  destruct (throughLast tl) as [s' |]; [reflexivity |].
  rewrite close_at. destruct (isClose c) eqn:E; [| reflexivity].
  apply isClose_eq in E as ->. reflexivity.
Qed.

Lemma throughLast_None_suffix l :
  throughLast l = None -> firstToLast l = None.
Proof.
  induction l as [| c tl IH]; [reflexivity |]. cbn.
  destruct (throughLast tl) eqn:E; [discriminate |].
  intros _. rewrite (IH eq_refl). destruct (isOpen c); reflexivity.
Qed.

Lemma matchAt_json p l :
  matchAt false (source jsonPattern) p l
  = match l with
    | c :: tl =>
        if isOpen c then
          (fun s => [string_of_list_ascii (c :: s)]) <$> throughLast tl
        else None
    | [] => None
    end.
Proof.
  destruct l as [| c tl]; [reflexivity |].
  unfold matchAt. cbn [source jsonPattern cat m lit list_ascii_of_string rest].
  unfold eqb_cu, isOpen. rewrite (Ascii.eqb_sym "{" c).
  destruct (Ascii.eqb c "{"); [| reflexivity].
  cbn [step caps prev rest]. rewrite greedy_throughLast.
  destruct (throughLast tl) as [s |] eqn:E; [| reflexivity].
  cbn. unfold consumed; cbn [rest].
  pose proof (throughLast_prefix _ _ E) as Hp.
  rewrite length_drop.
  assert (Hlen : (length s <= length tl)%nat).
  { pose proof (f_equal length Hp) as Hl. rewrite length_app in Hl. lia. }
  replace (S (length tl) - (length tl - length s))%nat with (S (length s))
    by lia.
  cbn [firstn fmap option_fmap option_map]. rewrite Hp at 1. rewrite take_app_length. reflexivity.
Qed.

(** The pattern of the source selects the span from the first opening
    brace through the last closing brace. *)
Lemma search_json p l :
  search false (source jsonPattern) p l
  = (fun s => [string_of_list_ascii s]) <$> firstToLast l.
Proof.
  revert p. induction l as [| c tl IH]; intros p.
  - reflexivity.
  - cbn [search]. rewrite matchAt_json. cbn [firstToLast].
    destruct (isOpen c).
    + destruct (throughLast tl) as [s |] eqn:E; [reflexivity |].
      cbn. rewrite IH, (throughLast_None_suffix _ E). reflexivity.
    + apply IH.
Qed.

Lemma throughLast_app mid post :
  "}"%char ∉ post -> throughLast (mid ++ "}"%char :: post) = Some (mid ++ ["}"%char]).
Proof.
  intros Hpost.
  assert (Hn : throughLast post = None).
  { induction post as [| c tl IH]; [reflexivity |]. cbn.
    rewrite IH by set_solver.
    destruct (isClose c) eqn:E; [| reflexivity].
    apply isClose_eq in E. set_solver. }
  induction mid as [| c tl IH]; cbn.
  - rewrite Hn. reflexivity.
  - rewrite IH. reflexivity.
Qed.

Lemma firstToLast_app pre mid post :
  "{"%char ∉ pre -> "}"%char ∉ post ->
  firstToLast (pre ++ "{"%char :: mid ++ "}"%char :: post)
  = Some ("{"%char :: mid ++ ["}"%char]).
Proof.
  intros Hpre Hpost. induction pre as [| c tl IH]; cbn.
  - rewrite throughLast_app by done. reflexivity.
  - destruct (isOpen c) eqn:E.
    + unfold isOpen in E. apply Ascii.eqb_eq in E. set_solver.
    + apply IH. set_solver.
Qed.

Lemma firstToLast_None l :
  (forall pre post, l = pre ++ "{"%char :: post -> "}"%char ∉ post) ->
  firstToLast l = None.
Proof.
  induction l as [| c tl IH]; intros H; [reflexivity |]. cbn.
  destruct (isOpen c) eqn:E.
  - unfold isOpen in E. apply Ascii.eqb_eq in E as ->.
    specialize (H [] tl eq_refl).
    destruct (throughLast tl) as [s |] eqn:Et; [| reflexivity].
    exfalso. apply throughLast_prefix in Et as Hp.
    assert (Hs : "}"%char ∈ s).
    { clear -Et. revert s Et. induction tl as [| c tl IH]; intros s; cbn;
        [discriminate |].
      destruct (throughLast tl) as [s' |].
      - intros [= <-]. specialize (IH s' eq_refl). set_solver.
      - destruct (isClose c) eqn:E; [| discriminate].
        apply isClose_eq in E as ->. intros [= <-]. set_solver. }
    apply H. rewrite Hp. set_solver.
  - apply IH. intros pre post ->. apply (H (c :: pre) post). reflexivity.
Qed.

End ScanFacts.

(** ** What the resolver prints *)

Module FormatFacts.
Import CodeUnit JSString JSDate Calendar TimeUtils.

Lemma digitChar_not_T n : Ascii.eqb (digitChar n) "T" = false.
Proof.
  unfold digitChar.
  assert (H : 0 <= n mod 10 < 10) by (apply Z.mod_pos_bound; lia).
  assert (Hc : n mod 10 = 0 \/ n mod 10 = 1 \/ n mod 10 = 2 \/ n mod 10 = 3
               \/ n mod 10 = 4 \/ n mod 10 = 5 \/ n mod 10 = 6
               \/ n mod 10 = 7 \/ n mod 10 = 8 \/ n mod 10 = 9) by lia.
  repeat destruct Hc as [-> | Hc]; try rewrite Hc; reflexivity.
Qed.

(** [d.toISOString().split('T')[0]] is the UTC calendar date. *)
Lemma iso_date t iso :
  toISOString (Some t) = Ok iso -> splitHead "T" iso = dateOf t.
Proof.
  intros [= <-]. unfold dateOf, isoYear, splitHead, pad.
  destruct ((0 <=? YearFromTime t) && (YearFromTime t <=? 9999));
    [| destruct (YearFromTime t <? 0)];
    cbv [decimal app string_of_list_ascii String.append
         list_ascii_of_string upTo];
    rewrite ?digitChar_not_T; reflexivity.
Qed.

(** [d.toTimeString().slice(0, 5)] is the local 24-hour clock. *)
Lemma local_clock tza t :
  sliceTo 5 (toTimeString tza (Some t)) = localClockOf tza t.
Proof. reflexivity. Qed.

Section Fallback.

Variable tza : zone.

Lemma getCurrentDateTime_ok t :
  getCurrentDateTime tza (Some t)
  = Ok {| date := dateOf t; time := localClockOf tza t |}.
Proof.
  unfold getCurrentDateTime.
  destruct (toISOString (Some t)) as [iso |] eqn:E; [| discriminate].
  cbv [mbind result_bind]. rewrite (iso_date _ _ E), local_clock. reflexivity.
Qed.

(** The branch taken when the phrase does not match. *)
Lemma fallback_to_base s t :
  RegExp.match_ (trim (toLowerCase s)) amountUnitPattern = None ->
  calculateRelativeTime tza s (Some t)
  = Ok {| date := dateOf t; time := localClockOf tza t |}.
Proof.
  intros Hno. unfold calculateRelativeTime. rewrite Hno.
  apply getCurrentDateTime_ok.
Qed.

Lemma print_target target :
  (d ← toISOString target;
   Ok {| date := splitHead "T" d;
         time := sliceTo 5 (toTimeString tza target) |})
  = printed tza target.
Proof.
  destruct target as [t' |]; [| reflexivity].
  apply (getCurrentDateTime_ok t').
Qed.

(** The resolver is total: it prints the date and time of some instant,
    or throws a [RangeError] when the instant it reached is NaN. *)
Lemma resolver_prints s base :
  exists target, calculateRelativeTime tza s base = printed tza target.
Proof.
  unfold calculateRelativeTime.
  destruct (RegExp.match_ _ amountUnitPattern); eexists; apply print_target.
Qed.

End Fallback.

End FormatFacts.

(** ** The matcher moves forward *)

Module EngineFacts.
Import CodeUnit RegExp TimeUtils.

Lemma shrinks_Some : shrinks Some.
Proof. intros st st' [= <-]. lia. Qed.

Lemma lit_shrinks ic s k : shrinks k -> shrinks (lit ic s k).
Proof.
  intros Hk. induction s as [| c s IH]; intros st st'; cbn [lit].
  - apply Hk.
  - destruct (rest st) as [| d tl] eqn:E; [discriminate |].
    destruct (eqb_cu ic c d); [| discriminate].
    intros H. apply IH in H. cbn in H. cbn. lia.
Qed.

Lemma greedy_shrinks cls k l p cs st' :
  shrinks k -> greedy cls k p l cs = Some st' ->
  (length (rest st') <= length l)%nat.
Proof.
  intros Hk. revert p. induction l as [| c tl IH]; intros p; cbn [greedy].
  - intros H. apply Hk in H. exact H.
  - destruct (cls c).
    + destruct (greedy cls k (Some c) tl cs) as [r |] eqn:E.
      * intros [= <-]. apply IH in E. cbn. lia.
      * intros H. apply Hk in H. exact H.
    + intros H. apply Hk in H. exact H.
Qed.

Lemma rep_shrinks n cls k : shrinks k -> shrinks (rep n cls k).
Proof.
  intros Hk. induction n as [| n IH]; intros st st'; cbn [rep].
  - apply Hk.
  - destruct (rest st) as [| d tl] eqn:E; [discriminate |].
    destruct (cls d); [| discriminate].
    intros H. apply IH in H. cbn in H. cbn. lia.
Qed.

Lemma m_shrinks ic r : forall k, shrinks k -> shrinks (m ic r k).
Proof.
  induction r as [| s | cls | cls | n cls | r1 IH1 r2 IH2 | r1 IH1 r2 IH2
                 | r IH | | |]; intros k Hk st st'; cbn [m].
  - apply Hk.
  - apply lit_shrinks, Hk.
  - destruct (rest st) as [| d tl] eqn:E; [discriminate |].
    destruct (cls d); [| discriminate].
    intros H. apply greedy_shrinks in H; [cbn; lia | exact Hk].
  - intros H. by apply greedy_shrinks in H.
  - apply rep_shrinks, Hk.
  - apply IH1, IH2, Hk.
  - destruct (m ic r1 k st) as [r |] eqn:E.
    + intros [= <-]. by apply (IH1 k Hk) in E.
    + apply IH2, Hk.
  - apply IH. intros st1 st2 H. apply Hk in H. exact H.
  - destruct (xorb _ _); [apply Hk | discriminate].
  - destruct (prev st); [discriminate | apply Hk].
  - destruct (rest st) eqn:E; [| discriminate].
    intros H. apply Hk in H. by rewrite E in H.
Qed.

(** A match that has moved forward has a non-empty text. *)
Lemma consumed_nonempty st0 st1 :
  (length (rest st1) < length (rest st0))%nat ->
  string_of_list_ascii (consumed st0 st1) ≠ "".
Proof.
  unfold consumed. intros Hlt.
  destruct (rest st0) as [| c l]; [cbn in Hlt; lia |].
  cbn [length] in *.
  replace (S (length l) - length (rest st1))%nat
    with (S (length l - length (rest st1))) by lia.
  cbn. discriminate.
Qed.

Lemma wordB_lit_moves ic c s R p l st1 :
  m ic (Cat WordB (Cat (Lit (String c s)) R)) Some (MState p l []) = Some st1 ->
  (length (rest st1) < length l)%nat.
Proof.
  cbn [m rest prev]. destruct (xorb _ _); [| discriminate].
  cbn [list_ascii_of_string lit rest].
  destruct l as [| c1 l]; [discriminate |].
  destruct (eqb_cu ic c c1); [| discriminate].
  intros H. apply lit_shrinks in H; [cbn in H; cbn; lia |].
  apply m_shrinks, shrinks_Some.
Qed.

Lemma wordB_plus_moves ic cls R p l st1 :
  m ic (Cat WordB (Cat (Plus cls) R)) Some (MState p l []) = Some st1 ->
  (length (rest st1) < length l)%nat.
Proof.
  cbn [m rest prev caps]. destruct (xorb _ _); [| discriminate].
  destruct l as [| c1 l]; [discriminate |].
  destruct (cls c1); [| discriminate].
  intros H. apply greedy_shrinks in H; [cbn; lia |].
  apply m_shrinks, shrinks_Some.
Qed.

Lemma inPattern_moves p l res :
  matchAt true (source inPattern) p l = Some res ->
  exists s tl, res = s :: tl /\ s ≠ "".
Proof.
  unfold matchAt.
  destruct (m true (source inPattern) Some (MState p l [])) as [st1 |] eqn:E;
    [| discriminate].
  intros [= <-]. eexists _, _. split; [reflexivity |].
  apply consumed_nonempty. cbn [rest].
  eapply (wordB_lit_moves true "i" "n"). exact E.
Qed.

Lemma fromNowPattern_moves p l res :
  matchAt true (source fromNowPattern) p l = Some res ->
  exists s tl, res = s :: tl /\ s ≠ "".
Proof.
  unfold matchAt.
  destruct (m true (source fromNowPattern) Some (MState p l [])) as [st1 |]
    eqn:E; [| discriminate].
  intros [= <-]. eexists _, _. split; [reflexivity |].
  apply consumed_nonempty. cbn [rest].
  eapply (wordB_plus_moves true isDigit). exact E.
Qed.

Lemma search_found ic r p l res :
  search ic r p l = Some res ->
  exists q l', matchAt ic r q l' = Some res.
Proof.
  revert p. induction l as [| c tl IH]; intros p; cbn [search].
  - destruct (matchAt ic r p []) eqn:E; [| discriminate].
    intros [= <-]. eauto.
  - destruct (matchAt ic r p (c :: tl)) eqn:E.
    + intros [= <-]. eauto.
    + apply IH.
Qed.

(** A phrase that extraction returns is not empty, so it passes the test
    [if (relativeExpression)]. *)
Lemma extracted_nonempty text phrase :
  extractRelativeTimeExpression text = Some phrase -> phrase ≠ "".
Proof.
  unfold extractRelativeTimeExpression. cbn [firstMatch]. unfold match_.
  destruct (search _ (source inPattern) _ _) as [mt |] eqn:E1.
  - apply search_found in E1 as (q & l' & H).
    apply inPattern_moves in H as (s & tl & -> & Hs). by intros [= <-].
  - destruct (search _ (source fromNowPattern) _ _) as [mt |] eqn:E2;
      [| discriminate].
    apply search_found in E2 as (q & l' & H).
    apply fromNowPattern_moves in H as (s & tl & -> & Hs). by intros [= <-].
Qed.

End EngineFacts.

(** ** When the validator throws *)

Module ThrowFacts.
Import RegExp JSValue GeminiService Checks Shapes Tactics.

Section Throw.

Context {number : Type}.
Variable numberToBoolean : number -> bool.
Variable numberToString : number -> string.

Abbreviation validate :=
  (validateScheduleData number numberToBoolean numberToString).

Implicit Types data : gmap string (value number).

Lemma ToString_throws (v : value number) e :
  ToString numberToString v = Throw e ->
  e = TypeError "Cannot convert object to primitive value".
Proof.
  revert e. induction v using ValueInduction.value_elems_ind; intros e;
    cbn [ToString]; try discriminate.
  - induction H as [| x l Hx _ IHl]; [discriminate |]. simpl.
    match type of IHl with ?j = _ -> _ => destruct j as [sr | er] end.
    + destruct x; try (destruct l; discriminate);
        match goal with
        | |- context [ToString numberToString ?v] =>
            destruct (ToString numberToString v) as [sx | ex] eqn:Ex
        end;
        try (destruct l; discriminate);
        intros [= <-]; by apply Hx.
    + destruct (match x with VNull => Ok ""%string | _ => _ end)
        as [sx | ex] eqn:Ex.
      * destruct l; [discriminate | exact IHl].
      * intros [= <-]. destruct x; try discriminate; by apply Hx.
  - destruct (existsb _ props); [| discriminate]. by intros [= <-].
Qed.

Lemma ToStringOpt_throws (v : option (value number)) e :
  ToStringOpt numberToString v = Throw e ->
  e = TypeError "Cannot convert object to primitive value".
Proof. destruct v; [apply ToString_throws | discriminate]. Qed.

Lemma primitive_prints (v : option (value number)) :
  primitive v = true -> exists s, ToStringOpt numberToString v = Ok s.
Proof. destruct v as [[] |]; try discriminate; cbn; eauto. Qed.

(** Whatever the validator throws is that [TypeError]. *)
Lemma validate_throws data e :
  validate data = Throw e ->
  e = TypeError "Cannot convert object to primitive value".
Proof.
  unfold validateScheduleData.
  destruct (firstMissing _ _ _ _); [discriminate |].
  repeat
    (match goal with
     | |- context [if ?b then _ else _] =>
         match type of b with bool => destruct b end
     | |- context [ToStringOpt numberToString ?v] =>
         let E := fresh "E" in
         destruct (ToStringOpt numberToString v) eqn:E
     end;
     cbn [mbind result_bind];
     try discriminate;
     try (intros [= <-]; by eapply ToStringOpt_throws)).
Qed.

(** X11: the validator throws nothing but the [TypeError] of a failed
    conversion to a string, and it returns a verdict whenever the type,
    priority, date and time of the candidate are missing, [null],
    booleans, numbers or strings. *)
Theorem validator_throws_only_on_objects data :
  (forall e, validate data = Throw e ->
     e = TypeError "Cannot convert object to primitive value")
  /\ ((forall field, field ∈ ["type"; "priority"; "date"; "time"] ->
         primitive (data !! field) = true) ->
      exists verdict, validate data = Ok verdict).
Proof.
  split.
  - intros e. unfold validateScheduleData.
    destruct (firstMissing _ _ _ _); [discriminate |].
    repeat
      (match goal with
       | |- context [if ?b then _ else _] =>
           match type of b with bool => destruct b end
       | |- context [ToStringOpt numberToString ?v] =>
           let E := fresh "E" in
           destruct (ToStringOpt numberToString v) eqn:E
       end;
       cbn [mbind result_bind];
       try discriminate;
       try (intros [= <-]; by eapply ToStringOpt_throws)).
  - intros H.
    destruct (primitive_prints (data !! "type")) as (s1 & H1);
      [apply H; set_solver |].
    destruct (primitive_prints (data !! "priority")) as (s2 & H2);
      [apply H; set_solver |].
    destruct (primitive_prints (data !! "date")) as (s3 & H3);
      [apply H; set_solver |].
    destruct (primitive_prints (data !! "time")) as (s4 & H4);
      [apply H; set_solver |].
    unfold validateScheduleData. rewrite H1, H2, H3, H4.
    cbn [mbind result_bind].
    repeat
      (match goal with
       | |- context [match ?o with Some _ => _ | None => _ end] =>
           destruct o
       | |- context [if ?b then _ else _] =>
           match type of b with bool => destruct b end
       end; eauto).
Qed.

End Throw.

End ThrowFacts.

(** ** Post-processing and orchestration *)

Module ServiceFacts.
Import CodeUnit RegExp JSString JSDate JSValue Calendar TimeUtils
  GeminiService SpecReading Checks.

Section Service.

Context {number : Type}.
Variable numberToBoolean : number -> bool.
Variable numberToString : number -> string.
Variable tza : zone.
Variable JSON_parse : string -> result (gmap string (value number)).

Abbreviation postProcess := (postProcessScheduleData number tza).
Abbreviation validate :=
  (validateScheduleData number numberToBoolean numberToString).
Abbreviation accepts := (Checks.accepts numberToBoolean numberToString).
Abbreviation tryBody :=
  (tryBlock number numberToBoolean numberToString tza JSON_parse).
Abbreviation process :=
  (processSchedulePrompt number numberToBoolean numberToString tza JSON_parse).

(** What follows the parse in the [try] block. *)
Abbreviation afterParse userPrompt clock parsed :=
  (scheduleData ← parsed;
   processedData ← postProcess scheduleData userPrompt clock;
   verdict ← validate processedData;
   if negb (fst verdict)
   then Throw (Error "Invalid schedule data structure")
   else Ok processedData).

Implicit Types scheduleData processedData : gmap string (value number).

(** Without an extractable phrase the candidate is returned as it came. *)
Lemma postProcess_untouched scheduleData userPrompt clock :
  hasRelativeTimeExpression userPrompt = false
  \/ extractRelativeTimeExpression userPrompt = None ->
  postProcess scheduleData userPrompt clock = Ok scheduleData.
Proof.
  unfold postProcessScheduleData. intros [-> | ->]; [reflexivity |].
  destruct (hasRelativeTimeExpression userPrompt); reflexivity.
Qed.


Lemma try_steps userPrompt text clock :
  tryBody userPrompt (Ok text) clock
  = match firstToLast (list_ascii_of_string text) with
    | None => Throw (Error "No valid JSON found in AI response")
    | Some span =>
        afterParse userPrompt clock (JSON_parse (string_of_list_ascii span))
    end.
Proof.
  unfold tryBlock. cbv [mbind result_bind]. unfold match_.
  cbn [ignoreCase jsonPattern]. rewrite ScanFacts.search_json.
  destruct (firstToLast _); reflexivity.
Qed.

(** C6, as the code has it: whenever a parsed candidate fails
    validation the caller gets a failure without the reason.  When the
    validator returns false the result carries the one message "Invalid
    schedule data structure", and the failing field or value is in the
    line the validator logs, not in the result.  When the validator throws
    while it converts a field to text, it has logged nothing and the
    result carries the message of that [TypeError], "Cannot convert object
    to primitive value". *)
Theorem validation_failure_is_generic userPrompt text clock jsonMatch
    scheduleData processedData :
  match_ text jsonPattern = Some jsonMatch ->
  JSON_parse (default "" (jsonMatch !! 0%nat)) = Ok scheduleData ->
  postProcess scheduleData userPrompt clock = Ok processedData ->
  ~ accepts processedData ->
  (process userPrompt (Ok text) clock
   = {| success := false; data := None;
        error := Some "Invalid schedule data structure" |}
   /\ exists line, validate processedData = Ok (false, Some line))
  \/ (process userPrompt (Ok text) clock
      = {| success := false; data := None;
           error := Some "Cannot convert object to primitive value" |}
      /\ validate processedData
         = Throw (TypeError "Cannot convert object to primitive value")).
Proof.
  intros Hm Hp Hpost Hno.
  unfold processSchedulePrompt, tryBlock. cbv [mbind result_bind].
  rewrite Hm, Hp, Hpost.
  destruct (validate processedData) as [verdict | e] eqn:Hv.
  - left. destruct (fst verdict) eqn:Hf.
    + exfalso. apply Hno. unfold Checks.accepts. rewrite Hv. f_equal.
      eapply ValidatorFacts.validate_true_None; eassumption.
    + split; [reflexivity |].
      destruct (ValidatorFacts.validate_false_line _ _ _ _ Hv Hf)
        as (line & ->).
      by exists line.
  - right. rewrite (ThrowFacts.validate_throws _ _ _ _ Hv). by split.
Qed.

(** C7, as the code has it: the span handed to the parser runs from the
    first opening brace of the reply through its last closing brace, so an
    object followed by text without a closing brace is parsed alone; a
    reply in which no opening brace is followed by a closing one fails with
    "No valid JSON found in AI response". *)
Theorem reply_span userPrompt clock :
  (forall pre mid post : list ascii,
     "{"%char ∉ pre -> "}"%char ∉ post ->
     tryBody userPrompt
       (Ok (string_of_list_ascii (pre ++ "{"%char :: mid ++ "}"%char :: post)))
       clock
     = afterParse userPrompt clock
         (JSON_parse (string_of_list_ascii ("{"%char :: mid ++ ["}"%char]))))
  /\
  (forall text,
     (forall pre post,
        list_ascii_of_string text = pre ++ "{"%char :: post ->
        "}"%char ∉ post) ->
     process userPrompt (Ok text) clock
     = {| success := false; data := None;
          error := Some "No valid JSON found in AI response" |}).
Proof.
  split.
  - intros pre mid post Hpre Hpost.
    rewrite try_steps, list_ascii_of_string_of_list_ascii.
    rewrite ScanFacts.firstToLast_app by done. reflexivity.
  - intros text Hno. unfold processSchedulePrompt.
    rewrite try_steps, (ScanFacts.firstToLast_None _ Hno). reflexivity.
Qed.

(** What the fallback returns: for a phrase that does not match the
    amount-and-unit pattern, the UTC date of the base instant paired with
    its local clock, as [getCurrentDateTime] prints them, and nothing is
    thrown.  The orchestrator absorbs nothing: it succeeds only if every
    step succeeded, and reports the message of whatever was thrown. *)
Theorem fallback_is_silent s t :
  match_ (trim (toLowerCase s)) amountUnitPattern = None ->
  calculateRelativeTime tza s (Some t)
  = Ok {| date := dateOf t; time := localClockOf tza t |}
  /\ calculateRelativeTime tza s (Some t) = getCurrentDateTime tza (Some t)
  /\ (forall userPrompt reply clock processedData,
        tryBody userPrompt reply clock = Ok processedData ->
        exists text jsonMatch scheduleData,
          reply = Ok text /\
          match_ text jsonPattern = Some jsonMatch /\
          JSON_parse (default "" (jsonMatch !! 0%nat)) = Ok scheduleData /\
          postProcess scheduleData userPrompt clock = Ok processedData /\
          accepts processedData)
  /\ (forall userPrompt reply clock e,
        tryBody userPrompt reply clock = Throw e ->
        process userPrompt reply clock
        = {| success := false; data := None; error := Some (message e) |}).
Proof.
  intros Hno. repeat split.
  - by apply FormatFacts.fallback_to_base.
  - rewrite FormatFacts.getCurrentDateTime_ok.
    by apply FormatFacts.fallback_to_base.
  - intros userPrompt reply clock processedData.
    unfold tryBlock. cbv [mbind result_bind].
    destruct reply as [text |]; [| discriminate].
    destruct (match_ text jsonPattern) as [jsonMatch |] eqn:Hm;
      [| discriminate].
    destruct (JSON_parse _) as [scheduleData |] eqn:Hp; [| discriminate].
    destruct (postProcess scheduleData userPrompt clock) as [d |] eqn:Hpost;
      [| discriminate].
    destruct (validate d) as [verdict |] eqn:Hv; [| discriminate].
    destruct (fst verdict) eqn:Hf; [| discriminate].
    intros [= <-]. exists text, jsonMatch, scheduleData.
    repeat split; try done.
    unfold Checks.accepts. rewrite Hv. f_equal.
    eapply ValidatorFacts.validate_true_None; eassumption.
  - intros userPrompt reply clock e He. unfold processSchedulePrompt.
    rewrite He. reflexivity.
Qed.

End Service.

End ServiceFacts.


(** ** Matching a run of digits *)

Module MatchFacts.
Import CodeUnit RegExp JSString TimeUtils Phrases Tactics.

Lemma digit_cases c :
  isDigit c = true ->
  c ∈ ["0"; "1"; "2"; "3"; "4"; "5"; "6"; "7"; "8"; "9"]%char.
Proof.
  destruct c as [[] [] [] [] [] [] [] []]; intros H;
    try (vm_compute in H; discriminate H); set_solver.
Qed.

Lemma digit_not_i ic c : isDigit c = true -> eqb_cu ic "i" c = false.
Proof.
  intros H. apply digit_cases in H. destruct ic; each_member H; reflexivity.
Qed.

Lemma digit_not_space c : isDigit c = true -> isSpace c = false.
Proof. intros H. apply digit_cases in H. each_member H; reflexivity. Qed.

Lemma digit_is_word c : isDigit c = true -> isWord c = true.
Proof. intros H. apply digit_cases in H. each_member H; reflexivity. Qed.

Lemma digit_toLower c : isDigit c = true -> toLower c = c.
Proof. intros H. apply digit_cases in H. each_member H; reflexivity. Qed.

Lemma after_cons p c ds : after p (c :: ds) = after (Some c) ds.
Proof.
  unfold after. destruct ds as [| d ds]; [reflexivity |].
  change (last (c :: d :: ds)) with (last (d :: ds)).
  destruct (last (d :: ds)) eqn:E; [reflexivity |].
  by apply last_None in E.
Qed.

(** A greedy class reads a whole run when the continuation accepts right
    after it. *)
Lemma greedy_run cls k ds tl p cs r :
  Forall (fun c => cls c = true) ds ->
  greedy cls k (after p ds) tl cs = Some r ->
  greedy cls k p (ds ++ tl) cs = Some r.
Proof.
  intros Hds. revert p. induction Hds as [| c ds Hc _ IH]; intros p Hk.
  - exact Hk.
  - cbn [app greedy]. rewrite Hc. rewrite after_cons in Hk.
    by rewrite (IH _ Hk).
Qed.

(** Both patterns that start with "in" fail where the text does not. *)
Lemma amountUnit_needs_i p c l :
  eqb_cu false "i" c = false ->
  matchAt false (source amountUnitPattern) p (c :: l) = None.
Proof.
  intros H. unfold matchAt.
  cbn [source amountUnitPattern cat m lit list_ascii_of_string rest].
  by rewrite H.
Qed.

Lemma inPattern_needs_i p c l :
  eqb_cu true "i" c = false ->
  matchAt true (source inPattern) p (c :: l) = None.
Proof.
  intros H. unfold matchAt.
  cbn [source inPattern cat m lit list_ascii_of_string rest].
  destruct (xorb _ _); [| reflexivity].
  cbn [lit rest]. by rewrite H.
Qed.

Lemma search_skip ic r ds tl p :
  (forall q c l, isDigit c = true -> matchAt ic r q (c :: l) = None) ->
  Forall (fun c => isDigit c = true) ds ->
  search ic r p (ds ++ tl) = search ic r (after p ds) tl.
Proof.
  intros Hr Hds. revert p. induction Hds as [| c ds Hc _ IH]; intros p.
  - reflexivity.
  - cbn [app search]. rewrite (Hr _ _ _ Hc), after_cons. apply IH.
Qed.

Lemma take_all_but {A} (l tl : list A) :
  take (length (l ++ tl) - length tl) (l ++ tl) = l.
Proof.
  rewrite length_app.
  replace (length l + length tl - length tl)%nat with (length l) by lia.
  apply take_app_length.
Qed.

Lemma lower_numeral_then ds tl :
  Forall (fun c => isDigit c = true) ds ->
  map toLower (ds ++ tl) = ds ++ map toLower tl.
Proof.
  intros Hds. rewrite map_app. f_equal.
  induction Hds as [| c ds Hc _ IH]; [reflexivity |].
  cbn. by rewrite (digit_toLower _ Hc), IH.
Qed.

Lemma trimStart_id l :
  (forall c, head l = Some c -> isSpace c = false) -> trimStart l = l.
Proof.
  destruct l as [| c l]; [reflexivity |]. intros H. cbn.
  by rewrite (H c eq_refl).
Qed.

Lemma trim_id l :
  (forall c, head l = Some c -> isSpace c = false) ->
  (forall c, head (rev l) = Some c -> isSpace c = false) ->
  trim (string_of_list_ascii l) = string_of_list_ascii l.
Proof.
  intros Hh Hl. unfold trim. rewrite list_ascii_of_string_of_list_ascii.
  rewrite (trimStart_id l Hh), (trimStart_id (rev l) Hl), rev_involutive.
  reflexivity.
Qed.

End MatchFacts.

(** ** Phrases of the form "<N> <unit> from now" *)

Module FromNowFacts.
Import CodeUnit RegExp JSString JSDate Calendar TimeUtils Phrases Tactics
  MatchFacts.

Lemma fromNow_normal ds u :
  numeral ds -> u ∈ unitNames ->
  trim (toLowerCase (fromNowPhrase ds u)) = fromNowPhrase ds u.
Proof.
  intros [Hne Hds] Hu. unfold toLowerCase, fromNowPhrase.
  rewrite list_ascii_of_string_of_list_ascii, (lower_numeral_then _ _ Hds).
  assert (Hlow : map toLower (list_ascii_of_string (" " +:+ u +:+ " from now"))
                 = list_ascii_of_string (" " +:+ u +:+ " from now"))
    by (each_unit Hu; reflexivity).
  rewrite Hlow. apply trim_id.
  - destruct Hds as [| c ds Hc _]; [done |].
    intros c' [= <-]. by apply digit_not_space.
  - rewrite rev_app_distr. each_unit Hu; intros c [= <-]; reflexivity.
Qed.

Lemma amountUnit_rejects_fromNow ds u :
  numeral ds -> u ∈ unitNames ->
  match_ (fromNowPhrase ds u) amountUnitPattern = None.
Proof.
  intros [Hne Hds] Hu. unfold match_, fromNowPhrase.
  rewrite list_ascii_of_string_of_list_ascii.
  rewrite search_skip; [| | exact Hds].
  2: { intros q c l Hc. apply amountUnit_needs_i. by apply digit_not_i. }
  generalize (after None ds) as q. intros q.
  each_unit Hu; vm_compute; reflexivity.
Qed.

Lemma inPattern_rejects_fromNow ds u :
  numeral ds -> u ∈ unitNames ->
  match_ (fromNowPhrase ds u) inPattern = None.
Proof.
  intros [Hne Hds] Hu. unfold match_, fromNowPhrase.
  rewrite list_ascii_of_string_of_list_ascii.
  rewrite search_skip; [| | exact Hds].
  2: { intros q c l Hc. apply inPattern_needs_i. by apply digit_not_i. }
  generalize (after None ds) as q. intros q.
  each_unit Hu; eval_tail; cbn [search ignoreCase source];
    (rewrite inPattern_needs_i by reflexivity); vm_compute; reflexivity.
Qed.

Lemma fromNowPattern_takes_all ds u :
  numeral ds -> u ∈ unitNames ->
  match_ (fromNowPhrase ds u) fromNowPattern = Some [fromNowPhrase ds u; u].
Proof.
  intros [Hne Hds] Hu. unfold match_, fromNowPhrase.
  rewrite list_ascii_of_string_of_list_ascii.
  destruct Hds as [| c ds Hc Hds]; [done |].
  cbn [app search ignoreCase]. unfold matchAt.
  cbn [source fromNowPattern cat m rest prev caps head isWordOpt].
  rewrite (digit_is_word _ Hc), Hc. cbn [xorb].
  each_unit Hu;
    (erewrite greedy_run;
      [| exact Hds
       | generalize (after (Some c) ds) as q; intros q;
         vm_compute; reflexivity]);
    unfold consumed; cbn [rest caps map];
    change (length (@nil ascii)) with 0%nat;
    rewrite Nat.sub_0_r, firstn_all; reflexivity.
Qed.

(** C3, on the code: a phrase "<N> <unit> from now" is detected and
    extracted whole, but the resolver's own pattern asks for "in" before
    the amount, so the phrase does not parse there and the resolver
    returns the base instant's date and time: no amount is added. *)
Theorem from_now_falls_back tza ds u t :
  numeral ds -> u ∈ unitNames ->
  hasRelativeTimeExpression (fromNowPhrase ds u) = true /\
  extractRelativeTimeExpression (fromNowPhrase ds u)
  = Some (fromNowPhrase ds u) /\
  match_ (trim (toLowerCase (fromNowPhrase ds u))) amountUnitPattern = None /\
  calculateRelativeTime tza (fromNowPhrase ds u) (Some t)
  = Ok {| date := dateOf t; time := localClockOf tza t |}.
Proof.
  intros Hds Hu.
  pose proof (inPattern_rejects_fromNow ds u Hds Hu) as Hin.
  pose proof (fromNowPattern_takes_all ds u Hds Hu) as Hfrom.
  assert (Hno : match_ (trim (toLowerCase (fromNowPhrase ds u)))
                  amountUnitPattern = None).
  { rewrite fromNow_normal by done. by apply amountUnit_rejects_fromNow. }
  repeat split.
  - unfold hasRelativeTimeExpression, test. cbn [existsb].
    rewrite Hin, Hfrom. reflexivity.
  - unfold extractRelativeTimeExpression. cbn [firstMatch].
    rewrite Hin, Hfrom. reflexivity.
  - exact Hno.
  - by apply FormatFacts.fallback_to_base.
Qed.

End FromNowFacts.

(** ** Calendar arithmetic *)

Module DateFacts.
Import JSString JSDate Calendar TimeUtils.

(** [YearFromDay] meets its specification: the year of a day is the one
    that starts on or before it and whose successor starts after it. *)
Lemma YearFromDay_spec d :
  DayFromYear (YearFromDay d) <= d < DayFromYear (YearFromDay d + 1).
Proof.
  unfold YearFromDay.
  set (y := 1970 + d * 400 / 146097).
  assert (H1 : DayFromYear (y - 1) <= d).
  { unfold DayFromYear, y. Z.to_euclidean_division_equations. lia. }
  assert (H2 : d < DayFromYear (y + 2)).
  { unfold DayFromYear, y. Z.to_euclidean_division_equations. lia. }
  destruct (d <? DayFromYear y) eqn:E1.
  - apply Z.ltb_lt in E1. replace (y - 1 + 1) with y by lia. lia.
  - apply Z.ltb_ge in E1. destruct (DayFromYear (y + 1) <=? d) eqn:E2.
    + apply Z.leb_le in E2. replace (y + 1 + 1) with (y + 2) by lia. lia.
    + apply Z.leb_gt in E2. lia.
Qed.

Lemma DayFromYear_step y : DayFromYear (y + 1) = DayFromYear y + DaysInYear y.
Proof.
  unfold DayFromYear, DaysInYear, isLeap.
  repeat match goal with
    | |- context [negb (?a =? ?b)] => destruct (Z.eqb_spec a b); cbn [negb]
    end;
    Z.to_euclidean_division_equations; lia.
Qed.

Lemma DayWithinYear_range t :
  0 <= DayWithinYear t < DaysInYear (YearFromTime t).
Proof.
  unfold DayWithinYear, YearFromTime.
  pose proof (YearFromDay_spec (Day t)) as H.
  rewrite DayFromYear_step in H. lia.
Qed.

Lemma MonthFromTime_range t : 0 <= MonthFromTime t <= 11.
Proof.
  unfold MonthFromTime.
  repeat match goal with
    | |- context [if ?b then _ else _] => destruct b
    end; lia.
Qed.

(** Setting the day of the month to the current one plus [n] moves the day
    number by [n]. *)
Lemma MakeDay_back t n :
  MakeDay (YearFromTime t) (MonthFromTime t) (DateFromTime t + n) = Day t + n.
Proof.
  unfold MakeDay. pose proof (MonthFromTime_range t) as Hm.
  rewrite (Z.div_small (MonthFromTime t) 12),
    (Z.mod_small (MonthFromTime t) 12) by lia.
  rewrite Z.add_0_r. unfold DateFromTime, DayWithinYear, InLeapYear. lia.
Qed.

(** The local setters work on the wall clock: adding [n] to the field
    moves the local time by [n] units, and the zone converts that local
    time back to an instant. *)
Lemma setMinutes_local tza t n :
  setMinutes tza (Some t) (plus (getMinutes tza (Some t)) n)
  = TimeClip (UTC tza (LocalTime tza t + n * msPerMinute)).
Proof.
  cbn. generalize (LocalTime tza t) as l. intros l. do 2 f_equal.
  unfold MakeDate, Day, MakeTime, HourFromTime, MinFromTime,
    SecFromTime, msFromTime, msPerDay, msPerHour, msPerMinute, msPerSecond.
  Z.to_euclidean_division_equations. lia.
Qed.

Lemma setHours_local tza t n :
  setHours tza (Some t) (plus (getHours tza (Some t)) n)
  = TimeClip (UTC tza (LocalTime tza t + n * msPerHour)).
Proof.
  cbn. generalize (LocalTime tza t) as l. intros l. do 2 f_equal.
  unfold MakeDate, Day, MakeTime, HourFromTime, MinFromTime,
    SecFromTime, msFromTime, msPerDay, msPerHour, msPerMinute, msPerSecond.
  Z.to_euclidean_division_equations. lia.
Qed.

Lemma setDate_local tza t n :
  setDate tza (Some t) (plus (getDate tza (Some t)) n)
  = TimeClip (UTC tza (LocalTime tza t + n * msPerDay)).
Proof.
  cbn. generalize (LocalTime tza t) as l. intros l. do 2 f_equal.
  rewrite MakeDay_back.
  unfold MakeDate, Day, TimeWithinDay, msPerDay.
  Z.to_euclidean_division_equations. lia.
Qed.

(** In a zone that keeps one offset, a local time is an instant moved by
    the offset, back and forth. *)
Lemma fixed_round_trip (offset : Z) t n :
  UTC offset (LocalTime offset t + n) = t + n.
Proof. unfold UTC, LocalTime, fixedOffset. lia. Qed.

Lemma setMinutes_add (tza : Z) t n :
  setMinutes tza (Some t) (plus (getMinutes tza (Some t)) n)
  = TimeClip (t + n * msPerMinute).
Proof. by rewrite setMinutes_local, fixed_round_trip. Qed.

Lemma setDate_add (tza : Z) t n :
  setDate tza (Some t) (plus (getDate tza (Some t)) n)
  = TimeClip (t + n * msPerDay).
Proof. by rewrite setDate_local, fixed_round_trip. Qed.

(** Minutes since midnight move by [n], modulo a day. *)
Lemma clock_advance t n :
  HourFromTime (t + n * msPerMinute) * 60 + MinFromTime (t + n * msPerMinute)
  = (HourFromTime t * 60 + MinFromTime t + n) mod 1440.
Proof.
  unfold HourFromTime, MinFromTime, msPerHour, msPerMinute.
  Z.to_euclidean_division_equations. lia.
Qed.

(** Whole days leave the clock alone and move the day number. *)
Lemma day_advance t n :
  Day (t + n * msPerDay) = Day t + n /\
  HourFromTime (t + n * msPerDay) = HourFromTime t /\
  MinFromTime (t + n * msPerDay) = MinFromTime t.
Proof.
  unfold Day, HourFromTime, MinFromTime, msPerDay, msPerHour, msPerMinute.
  repeat split; Z.to_euclidean_division_equations; lia.
Qed.

Lemma clockOf_days t n : clockOf (t + n * msPerDay) = clockOf t.
Proof.
  unfold clockOf. destruct (day_advance t n) as (_ & -> & ->). reflexivity.
Qed.

End DateFacts.

(** ** Phrases of the form "in <N> minutes" and "in <N> days" *)

Module InPhraseFacts.
Import CodeUnit RegExp JSString JSDate Calendar TimeUtils Phrases Tactics
  MatchFacts.

Lemma in_normal ds u :
  numeral ds -> u ∈ ["minutes"; "days"] ->
  trim (toLowerCase (inPhrase ds u)) = inPhrase ds u.
Proof.
  intros [Hne Hds] Hu. unfold toLowerCase, inPhrase.
  rewrite list_ascii_of_string_of_list_ascii, map_app.
  rewrite (lower_numeral_then _ _ Hds).
  assert (Hlow : map toLower (list_ascii_of_string (" " +:+ u))
                 = list_ascii_of_string (" " +:+ u))
    by (set_unfold in Hu; destruct Hu as [-> | [-> | []]]; reflexivity).
  rewrite Hlow. apply trim_id.
  - intros c [= <-]. reflexivity.
  - rewrite !rev_app_distr.
    set_unfold in Hu; destruct Hu as [-> | [-> | []]];
      intros c [= <-]; reflexivity.
Qed.

Lemma amountUnit_matches_in ds u :
  numeral ds -> u ∈ ["minutes"; "days"] ->
  exists m0,
    match_ (inPhrase ds u) amountUnitPattern
    = Some [m0; string_of_list_ascii ds;
            string_of_list_ascii (removelast (list_ascii_of_string u))].
Proof.
  intros [Hne Hds] Hu. unfold match_, inPhrase.
  rewrite list_ascii_of_string_of_list_ascii.
  destruct Hds as [| c ds Hc Hds]; [done |].
  change (list_ascii_of_string "in ") with ["i"; "n"; " "]%char.
  cbn [app search]. unfold matchAt.
  cbn [amountUnitPattern ignoreCase source cat m lit list_ascii_of_string rest
       step caps prev eqb_cu].
  rewrite !Ascii.eqb_refl. change (isSpace " ") with true. cbn [greedy].
  rewrite (digit_not_space _ Hc). cbn [rest caps]. rewrite Hc.
  assert (Htail : forall q,
    exists r,
      greedy isDigit
        (fun st' =>
           match rest st' with
           | [] => None
           | c1 :: tl0 =>
               if isSpace c1
               then greedy isSpace (m false units Some) (Some c1) tl0
                      (caps st' ++
                       [consumed
                          (MState (Some " "%char)
                             (c :: ds ++ list_ascii_of_string (" " +:+ u)) [])
                          st'])
               else None
           end) q (list_ascii_of_string (" " +:+ u)) [] = Some r
      /\ caps r = [c :: ds; removelast (list_ascii_of_string u)]).
  { intros q. set_unfold in Hu. destruct Hu as [-> | [-> | []]];
      eval_tail; cbn [greedy]; change (isDigit " ") with false;
      cbn [rest caps]; change (isSpace " ") with true; unfold consumed;
      cbn [rest];
      match goal with
      | |- context [take ?n (c :: ds ++ ?tl)] =>
          replace (take n (c :: ds ++ tl)) with (c :: ds)
            by (symmetry; apply (take_all_but (c :: ds) tl))
      end;
      eexists; split; vm_compute; reflexivity. }
  destruct (Htail (after (Some c) ds)) as (r & Hr & Hcaps).
  rewrite (greedy_run _ _ _ _ _ _ _ Hds Hr). rewrite Hcaps.
  eexists. reflexivity.
Qed.

Section Resolved.

Variable tza : Z.

(** "in N minutes" moves the instant by N minutes. *)
Lemma in_minutes ds t :
  numeral ds ->
  calculateRelativeTime tza (inPhrase ds "minutes") (Some t)
  = printed tza
      (TimeClip (t + parseInt (string_of_list_ascii ds) * msPerMinute)).
Proof.
  intros Hds. unfold calculateRelativeTime.
  rewrite in_normal by (done || set_solver).
  destruct (amountUnit_matches_in ds "minutes" Hds) as (m0 & ->);
    [set_solver |].
  cbn [lookup list_lookup default from_option id].
  change (oneOf _ ["minute"; "minutes"]) with true. cbv iota.
  rewrite DateFacts.setMinutes_add. apply FormatFacts.print_target.
Qed.

(** "in N days" moves the instant by N days. *)
Lemma in_days ds t :
  numeral ds ->
  calculateRelativeTime tza (inPhrase ds "days") (Some t)
  = printed tza
      (TimeClip (t + parseInt (string_of_list_ascii ds) * msPerDay)).
Proof.
  intros Hds. unfold calculateRelativeTime.
  rewrite in_normal by (done || set_solver).
  destruct (amountUnit_matches_in ds "days" Hds) as (m0 & ->);
    [set_solver |].
  cbn [lookup list_lookup default from_option id].
  change (oneOf _ ["minute"; "minutes"]) with false.
  change (oneOf _ ["hour"; "hours"]) with false.
  change (oneOf _ ["day"; "days"]) with true. cbv iota.
  rewrite DateFacts.setDate_add. apply FormatFacts.print_target.
Qed.

(** Within the range of [Date], "in N minutes" prints the UTC date and the
    local clock of the instant N minutes on.  The bound on the amount
    keeps the statement to sums that the host computes exactly. *)
Lemma minutes_resolved ds t :
  numeral ds ->
  exactMinutes (parseInt (string_of_list_ascii ds)) ->
  Z.abs (t + parseInt (string_of_list_ascii ds) * msPerMinute) <= maxTime ->
  calculateRelativeTime tza (inPhrase ds "minutes") (Some t)
  = Ok {| date := dateOf (t + parseInt (string_of_list_ascii ds) * msPerMinute);
          time := localClockOf tza
                    (t + parseInt (string_of_list_ascii ds) * msPerMinute) |}.
Proof.
  intros Hds _ Hrange. rewrite in_minutes by done.
  unfold TimeClip. apply Z.leb_le in Hrange. rewrite Hrange. reflexivity.
Qed.

(** Within the range of [Date], "in N days" prints the UTC date N days on
    and the clock of the base. *)
Lemma days_resolved ds t :
  numeral ds ->
  Z.abs (t + parseInt (string_of_list_ascii ds) * msPerDay) <= maxTime ->
  calculateRelativeTime tza (inPhrase ds "days") (Some t)
  = Ok {| date := dateOf (t + parseInt (string_of_list_ascii ds) * msPerDay);
          time := localClockOf tza t |}.
Proof.
  intros Hds Hrange. rewrite in_days by done.
  unfold TimeClip. apply Z.leb_le in Hrange. rewrite Hrange.
  unfold printed, localClockOf, LocalTime, fixedOffset.
  replace (t + parseInt (string_of_list_ascii ds) * msPerDay + tza)
    with (t + tza + parseInt (string_of_list_ascii ds) * msPerDay) by lia.
  by rewrite DateFacts.clockOf_days.
Qed.

(** Past the range of [Date] the resolver throws. *)
Lemma minutes_out_of_range ds t :
  numeral ds ->
  maxTime < Z.abs (t + parseInt (string_of_list_ascii ds) * msPerMinute) ->
  calculateRelativeTime tza (inPhrase ds "minutes") (Some t)
  = Throw (RangeError "Invalid time value").
Proof.
  intros Hds Hrange. rewrite in_minutes by done.
  unfold TimeClip. apply Z.leb_gt in Hrange. rewrite Hrange. reflexivity.
Qed.

End Resolved.

(** On a host whose zone is UTC the date printed is the local one. *)
Lemma utc_host_date t : localDateOf 0 t = dateOf t.
Proof. unfold localDateOf, LocalTime, fixedOffset. by rewrite Z.add_0_r. Qed.

End InPhraseFacts.

(** ** The pipeline on examples *)

Module Examples.
Import RegExp JSString JSDate JSValue Calendar TimeUtils GeminiService
  SpecReading Checks Host.

Abbreviation validate :=
  (validateScheduleData number numberToBoolean numberToString).
Abbreviation process :=
  (processSchedulePrompt number numberToBoolean numberToString).

Lemma validator_contract_witness :
  validate noTitle = Ok (false, Some "Missing required field: title") /\
  validate birthday = Ok (false, Some "Invalid type: birthday") /\
  validate (minimal "meeting" "Standup" "2024-01-16" "10:00")
  = Ok (true, None).
Proof.
  pose proof (ValidatorFacts.validator_contract numberToBoolean numberToString
                noTitle) as (_ & _ & _ & _ & _ & _ & _ & _ & Htitle & _).
  pose proof (ValidatorFacts.validator_contract numberToBoolean numberToString
                birthday)
    as (_ & _ & _ & _ & _ & _ & _ & _ & _ & _ & _ & Hbirthday & _).
  pose proof (ValidatorFacts.validator_contract numberToBoolean numberToString
                (minimal "meeting" "Standup" "2024-01-16" "10:00"))
    as (_ & _ & _ & _ & _ & _ & Hmin & _).
  split; [| split].
  - apply Htitle; reflexivity.
  - apply Hbirthday; reflexivity.
  - apply (Hmin "meeting" "Standup" "2024-01-16" "10:00");
      [set_solver | discriminate | reflexivity | reflexivity | reflexivity].
Defined.

Lemma validator_inspects_five_only_witness :
  validate (<["duration" := VNum (-30)]> (<["location" := VNull]> callSarah))
  = Ok (true, None).
Proof.
  apply (ValidatorFacts.validator_inspects_five_only numberToBoolean
           numberToString callSarah).
  - intros field Hin. unfold inspected in Hin.
    rewrite !lookup_insert_ne; [reflexivity | |];
      intros <-; set_unfold in Hin; intuition discriminate.
  - reflexivity.
Defined.


Lemma validation_failure_is_generic_witness :
  process 0 JSON_parse "Schedule a task" (Ok noTitleText) morning
  = {| success := false; data := None;
       error := Some "Invalid schedule data structure" |}.
Proof.
  destruct (ServiceFacts.validation_failure_is_generic numberToBoolean
              numberToString 0 JSON_parse "Schedule a task" noTitleText
              morning [noTitleText] noTitle noTitle eq_refl eq_refl eq_refl)
    as [[H _] | [_ H]].
  - intros H. vm_compute in H. discriminate H.
  - exact H.
  - vm_compute in H. discriminate H.
Defined.

(** A candidate whose type is an object with a property of its own named
    toString fails validation with the validator's exception: the caller
    gets the message of the [TypeError] and no reason. *)
Lemma object_type_fails_without_reason :
  validate Hosts.objectType
  = Throw (TypeError "Cannot convert object to primitive value")
  /\ process 0 Hosts.parseObjectType "Schedule a task"
       (Ok Hosts.objectTypeText) morning
     = {| success := false; data := None;
          error := Some "Cannot convert object to primitive value" |}.
Proof. split; vm_compute; reflexivity. Qed.

(** Two candidates rejected for different reasons get the same result. *)
Lemma generic_message_hides_reason :
  validate noTitle = Ok (false, Some "Missing required field: title") /\
  validate birthday = Ok (false, Some "Invalid type: birthday") /\
  process 0 JSON_parse "Schedule a task" (Ok noTitleText) morning
  = process 0 JSON_parse "Schedule a task" (Ok birthdayText) morning /\
  error (process 0 JSON_parse "Schedule a task" (Ok noTitleText) morning)
  = Some "Invalid schedule data structure".
Proof. repeat split; vm_compute; reflexivity. Qed.

Lemma reply_span_witness :
  tryBlock number numberToBoolean numberToString 0 JSON_parse
    "Schedule a task" (Ok ("Sure! " +:+ callSarahText +:+ " Done.")) morning
  = Ok callSarah.
Proof.
  pose proof (proj1 (ServiceFacts.reply_span numberToBoolean numberToString 0
                       JSON_parse "Schedule a task" morning)
                (list_ascii_of_string "Sure! ")
                (removelast (tail (list_ascii_of_string callSarahText)))
                (list_ascii_of_string " Done.")) as H.
  etransitivity; [apply H |]; [| | vm_compute; reflexivity].
  - rewrite list_elem_of_In. cbn. intuition discriminate.
  - rewrite list_elem_of_In. cbn. intuition discriminate.
Defined.

(** A reply of two objects: the first alone is accepted, but the span
    taken is the whole reply, which does not parse. *)
Lemma second_object_breaks_parse :
  firstBalancedObject twoObjects = Some callSarahText /\
  match_ twoObjects jsonPattern = Some [twoObjects] /\
  success (process 0 JSON_parse "Schedule a task" (Ok callSarahText) morning)
  = true /\
  success (process 0 JSON_parse "Schedule a task" (Ok twoObjects) morning)
  = false.
Proof. repeat split; vm_compute; reflexivity. Qed.

Lemma fallback_is_silent_witness :
  calculateRelativeTime IST "sometime soon" morning
  = Ok {| date := "2024-01-15"; time := "14:20" |}.
Proof.
  apply (ServiceFacts.fallback_is_silent numberToBoolean numberToString IST
           JSON_parse "sometime soon" (utc 2024 0 15 8 50) eq_refl).
Defined.

Lemma from_now_falls_back_witness :
  extractRelativeTimeExpression "2 hours from now" = Some "2 hours from now" /\
  calculateRelativeTime 0 "2 hours from now" morning
  = Ok {| date := "2024-01-15"; time := "08:50" |}.
Proof.
  destruct (FromNowFacts.from_now_falls_back 0 ["2"%char] "hours"
              (utc 2024 0 15 8 50)) as (_ & Hext & _ & Hcalc).
  - split; [discriminate | repeat constructor].
  - unfold Phrases.unitNames. set_solver.
  - split; [exact Hext | exact Hcalc].
Defined.

(** C1 on a host at UTC+05:30: the base reads 23:50 on 2024-01-15 on the
    local clock; "in 20 minutes" prints the time 00:10 with the date
    2024-01-15, though the local date of the resulting instant is
    2024-01-16.  On a host at UTC the same reading gives 2024-01-16. *)
Theorem minutes_date_not_carried :
  localDateOf IST (utc 2024 0 15 18 20) = "2024-01-15" /\
  localClockOf IST (utc 2024 0 15 18 20) = "23:50" /\
  calculateRelativeTime IST "in 20 minutes" (Some (utc 2024 0 15 18 20))
  = Ok {| date := "2024-01-15"; time := "00:10" |} /\
  localDateOf IST (utc 2024 0 15 18 20 + 20 * msPerMinute) = "2024-01-16" /\
  calculateRelativeTime 0 "in 20 minutes" (Some (utc 2024 0 15 23 50))
  = Ok {| date := "2024-01-16"; time := "00:10" |}.
Proof. repeat split; vm_compute; reflexivity. Qed.

(** C2 on a host at UTC+05:30: the base reads 00:10 on 2024-01-15 on the
    local clock; "in 3 days" prints the date 2024-01-17, the UTC date of
    the resulting instant, though its local date is 2024-01-18. *)
Theorem days_date_not_local :
  localDateOf IST (utc 2024 0 14 18 40) = "2024-01-15" /\
  localClockOf IST (utc 2024 0 14 18 40) = "00:10" /\
  calculateRelativeTime IST "in 3 days" (Some (utc 2024 0 14 18 40))
  = Ok {| date := "2024-01-17"; time := "00:10" |} /\
  localDateOf IST (utc 2024 0 14 18 40 + 3 * msPerDay) = "2024-01-18".
Proof. repeat split; vm_compute; reflexivity. Qed.

(** C4 on a host at UTC+05:30: the base reads 01:30 on 2024-01-16 on the
    local clock.  For a phrase that does not parse, and so also for the
    extracted phrase "2 hours from now", the fallback throws nothing but
    prints the time 01:30 with the date 2024-01-15, the UTC date of the
    base: not the date and time of the base on any one clock.  On a host
    at UTC the fallback returns the base's own date and time. *)
Theorem fallback_date_not_own :
  match_ (trim (toLowerCase "sometime soon")) amountUnitPattern = None /\
  localDateOf IST (utc 2024 0 15 20 0) = "2024-01-16" /\
  localClockOf IST (utc 2024 0 15 20 0) = "01:30" /\
  calculateRelativeTime IST "sometime soon" (Some (utc 2024 0 15 20 0))
  = Ok {| date := "2024-01-15"; time := "01:30" |} /\
  calculateRelativeTime IST "2 hours from now" (Some (utc 2024 0 15 20 0))
  = Ok {| date := "2024-01-15"; time := "01:30" |} /\
  getCurrentDateTime IST (Some (utc 2024 0 15 20 0))
  = Ok {| date := "2024-01-15"; time := "01:30" |} /\
  calculateRelativeTime 0 "sometime soon" (Some (utc 2024 0 15 20 0))
  = Ok {| date := "2024-01-15"; time := "20:00" |}.
Proof. repeat split; vm_compute; reflexivity. Qed.

(** An amount that takes the instant past the range of [Date]. *)
Lemma huge_amount_throws :
  calculateRelativeTime 0 "in 300000000000 minutes" morning
  = Throw (RangeError "Invalid time value").
Proof. vm_compute. reflexivity. Qed.

(** The end-to-end scenario of the specification, on a host at UTC. *)
Lemma call_sarah_in_30_minutes :
  process 0 JSON_parse "remind me to call Sarah in 30 minutes"
    (Ok ("Sure! " +:+ callSarahText)) morning
  = {| success := true;
       data := Some (<["time" := VStr "09:20"]>
                       (<["date" := VStr "2024-01-15"]> callSarah));
       error := None |}.
Proof. vm_compute. reflexivity. Qed.

End Examples.

(** * Further properties *)

(** ** The resolver on every unit *)

Module ResolverFacts.
Import CodeUnit RegExp JSString JSDate Calendar TimeUtils Phrases Tactics
  MatchFacts Units.

Lemma in_normal_unit ds u :
  numeral ds -> u ∈ unitNames ->
  trim (toLowerCase (inPhrase ds u)) = inPhrase ds u.
Proof.
  intros [Hne Hds] Hu. unfold toLowerCase, inPhrase.
  rewrite list_ascii_of_string_of_list_ascii, map_app.
  rewrite (lower_numeral_then _ _ Hds).
  assert (Hlow : map toLower (list_ascii_of_string (" " +:+ u))
                 = list_ascii_of_string (" " +:+ u))
    by (each_unit Hu; reflexivity).
  rewrite Hlow. apply trim_id.
  - intros c [= <-]. reflexivity.
  - rewrite !rev_app_distr. each_unit Hu; intros c [= <-]; reflexivity.
Qed.

Lemma amountUnit_reads_unit ds u :
  numeral ds -> u ∈ unitNames ->
  exists m0,
    match_ (inPhrase ds u) amountUnitPattern
    = Some [m0; string_of_list_ascii ds; singular u].
Proof.
  intros [Hne Hds] Hu. unfold match_, inPhrase.
  rewrite list_ascii_of_string_of_list_ascii.
  destruct Hds as [| c ds Hc Hds]; [done |].
  change (list_ascii_of_string "in ") with ["i"; "n"; " "]%char.
  cbn [app search]. unfold matchAt.
  cbn [amountUnitPattern ignoreCase source cat m lit list_ascii_of_string rest
       step caps prev eqb_cu].
  rewrite !Ascii.eqb_refl. change (isSpace " ") with true. cbn [greedy].
  rewrite (digit_not_space _ Hc). cbn [rest caps]. rewrite Hc.
  assert (Htail : forall q,
    exists r,
      greedy isDigit
        (fun st' =>
           match rest st' with
           | [] => None
           | c1 :: tl0 =>
               if isSpace c1
               then greedy isSpace (m false units Some) (Some c1) tl0
                      (caps st' ++
                       [consumed
                          (MState (Some " "%char)
                             (c :: ds ++ list_ascii_of_string (" " +:+ u)) [])
                          st'])
               else None
           end) q (list_ascii_of_string (" " +:+ u)) [] = Some r
      /\ caps r = [c :: ds; list_ascii_of_string (singular u)]).
  { intros q. each_unit Hu;
      eval_tail; cbn [greedy]; change (isDigit " ") with false;
      cbn [rest caps]; change (isSpace " ") with true; unfold consumed;
      cbn [rest];
      match goal with
      | |- context [take ?n (c :: ds ++ ?tl)] =>
          replace (take n (c :: ds ++ tl)) with (c :: ds)
            by (symmetry; apply (take_all_but (c :: ds) tl))
      end;
      eexists; split; vm_compute; reflexivity. }
  destruct (Htail (after (Some c) ds)) as (r & Hr & Hcaps).
  rewrite (greedy_run _ _ _ _ _ _ _ Hds Hr). rewrite Hcaps.
  eexists. cbn [map]. rewrite string_of_list_ascii_of_string. reflexivity.
Qed.

(** On "in N unit" the resolver prints the instant its [switch] reaches
    for the amount N and the unit read. *)
Lemma resolver_on_phrase tza ds u now :
  numeral ds -> u ∈ unitNames ->
  calculateRelativeTime tza (inPhrase ds u) now
  = printed tza
      (target tza (singular u) (parseInt (string_of_list_ascii ds)) now).
Proof.
  intros Hds Hu. unfold calculateRelativeTime.
  rewrite in_normal_unit by done.
  destruct (amountUnit_reads_unit ds u Hds Hu) as (m0 & ->).
  cbn [lookup list_lookup default from_option id].
  apply FormatFacts.print_target.
Qed.

Lemma unitLength_names u ms :
  unitLength u = Some ms ->
  u ∈ ["minute"; "minutes"; "hour"; "hours"; "day"; "days"; "week"; "weeks"].
Proof.
  unfold unitLength, oneOf. cbn [existsb].
  repeat match goal with
    | |- context [String.eqb u ?s] =>
        destruct (String.eqb_spec u s); [subst; set_solver |]
    end.
  cbn. discriminate.
Qed.

Lemma target_local tza u ms n t :
  unitLength u = Some ms ->
  target tza (singular u) n (Some t)
  = TimeClip (UTC tza (LocalTime tza t + n * ms)).
Proof.
  intros Hu. pose proof (unitLength_names u ms Hu) as Hin.
  each_member Hin; injection Hu as <-;
    match goal with
    | |- target _ ?s _ _ = _ =>
        let s' := eval vm_compute in s in change s with s'
    end;
    unfold target;
    repeat match goal with
      | |- context [oneOf ?a ?b] =>
          let v := eval vm_compute in (oneOf a b) in change (oneOf a b) with v
      end;
    cbv iota;
    rewrite ?DateFacts.setMinutes_local, ?DateFacts.setHours_local,
      ?DateFacts.setDate_local;
    do 3 f_equal; lia.
Qed.

(** On "in N unit" with a unit of fixed length the local setter moves the
    wall clock by N units. *)
Lemma local_target tza ds u ms t :
  numeral ds ->
  unitLength u = Some ms ->
  calculateRelativeTime tza (inPhrase ds u) (Some t)
  = printed tza
      (TimeClip (UTC tza (LocalTime tza t
                          + parseInt (string_of_list_ascii ds) * ms))).
Proof.
  intros Hds Hu.
  rewrite resolver_on_phrase.
  - by rewrite (target_local _ _ _ _ _ Hu).
  - done.
  - pose proof (unitLength_names u ms Hu) as Hin. unfold unitNames.
    set_unfold. tauto.
Qed.

(** Every local time is shown in a zone that keeps one offset. *)
Lemma shown_fixed (offset : Z) x : shown offset x.
Proof. unfold shown, LocalTime, UTC, fixedOffset. lia. Qed.

(** X1: for the units of fixed length (minute, hour, day, week, singular
    or plural) and an amount N whose sums the host computes exactly, the
    resolver moves the local wall clock of the base by N times the length
    of the unit and takes the instant that the host's zone gives for that
    local time; it prints the UTC date and the local clock of that
    instant, or throws a [RangeError] when it is out of the range of
    [Date].  In a zone that keeps one offset the instant is the base plus
    N times the length of the unit. *)
Theorem fixed_length_units tza ds u ms t :
  numeral ds ->
  unitLength u = Some ms ->
  exactSum (parseInt (string_of_list_ascii ds)) ms ->
  calculateRelativeTime tza (inPhrase ds u) (Some t)
  = printed tza
      (TimeClip (UTC tza (LocalTime tza t
                          + parseInt (string_of_list_ascii ds) * ms)))
  /\ forall offset : Z,
       calculateRelativeTime offset (inPhrase ds u) (Some t)
       = printed offset
           (TimeClip (t + parseInt (string_of_list_ascii ds) * ms)).
Proof.
  intros Hds Hu _.
  assert (Hin : u ∈ unitNames).
  { pose proof (unitLength_names u ms Hu) as Hin. unfold unitNames.
    set_unfold. tauto. }
  split; [| intros offset];
    rewrite (resolver_on_phrase _ _ _ _ Hds Hin),
      (target_local _ _ _ _ _ Hu); [reflexivity |].
  by rewrite DateFacts.fixed_round_trip.
Qed.

Lemma clockOf_minuteOfDay t : clockOf t = clockAt (minuteOfDay t).
Proof.
  unfold clockOf, clockAt, minuteOfDay.
  assert (H : 0 <= MinFromTime t < 60)
    by (unfold MinFromTime; apply Z.mod_pos_bound; lia).
  replace ((HourFromTime t * 60 + MinFromTime t) / 60) with (HourFromTime t)
    by (Z.to_euclidean_division_equations; lia).
  replace ((HourFromTime t * 60 + MinFromTime t) mod 60) with (MinFromTime t)
    by (Z.to_euclidean_division_equations; lia).
  reflexivity.
Qed.

Lemma unitLength_minutes u ms :
  unitLength u = Some ms -> ms = ms / msPerMinute * msPerMinute.
Proof.
  intros Hu. pose proof (unitLength_names u ms Hu) as Hin.
  each_member Hin; injection Hu as <-; reflexivity.
Qed.

Lemma clock_of_shown tza ds u ms t r :
  numeral ds ->
  unitLength u = Some ms ->
  shown tza (LocalTime tza t + parseInt (string_of_list_ascii ds) * ms) ->
  calculateRelativeTime tza (inPhrase ds u) (Some t) = Ok r ->
  time r
  = clockOf (LocalTime tza t + parseInt (string_of_list_ascii ds) * ms).
Proof.
  intros Hds Hu Hshown. rewrite (local_target _ _ _ _ _ Hds Hu).
  destruct (TimeClip _) as [t' |] eqn:Hclip; [| discriminate].
  intros [= <-]. cbn [time]. unfold TimeClip in Hclip.
  destruct (_ <=? _); [| discriminate]. injection Hclip as <-.
  unfold localClockOf. by rewrite Hshown.
Qed.

(** X2: for the units of fixed length and an amount N whose sums the
    host computes exactly, when the local time N units after the base's is
    one that the host's zone shows (a transition does not skip it), the
    time returned is the clock of the base on the local wall clock, moved
    by the amount and taken modulo a day.  In a zone that keeps one offset
    this holds of every base and amount. *)
Theorem clock_moves_by_amount tza ds u ms t :
  numeral ds ->
  unitLength u = Some ms ->
  exactSum (parseInt (string_of_list_ascii ds)) ms ->
  (forall r,
     shown tza (LocalTime tza t + parseInt (string_of_list_ascii ds) * ms) ->
     calculateRelativeTime tza (inPhrase ds u) (Some t) = Ok r ->
     time r
     = clockAt ((minuteOfDay (LocalTime tza t)
                 + parseInt (string_of_list_ascii ds) * (ms / msPerMinute))
                mod 1440))
  /\ (forall (offset : Z) r,
        calculateRelativeTime offset (inPhrase ds u) (Some t) = Ok r ->
        time r
        = clockAt ((minuteOfDay (LocalTime offset t)
                    + parseInt (string_of_list_ascii ds) * (ms / msPerMinute))
                   mod 1440)).
Proof.
  intros Hds Hu _.
  assert (Hany : forall tz r,
            shown tz (LocalTime tz t
                      + parseInt (string_of_list_ascii ds) * ms) ->
            calculateRelativeTime tz (inPhrase ds u) (Some t) = Ok r ->
            time r
            = clockAt ((minuteOfDay (LocalTime tz t)
                        + parseInt (string_of_list_ascii ds)
                          * (ms / msPerMinute))
                       mod 1440)).
  { intros tz r Hshown Hr.
    rewrite (clock_of_shown _ _ _ _ _ _ Hds Hu Hshown Hr).
    rewrite clockOf_minuteOfDay. f_equal.
    unfold minuteOfDay. generalize (LocalTime tz t) as l. intros l.
    rewrite (unitLength_minutes _ _ Hu) at 1 2.
    set (k := ms / msPerMinute).
    replace (l + parseInt (string_of_list_ascii ds) * (k * msPerMinute))
      with (l + parseInt (string_of_list_ascii ds) * k * msPerMinute)
      by lia.
    apply DateFacts.clock_advance. }
  split.
  - intros r. apply Hany.
  - intros offset r. apply Hany, shown_fixed.
Qed.

(** X3: adding days or weeks leaves the time of day alone when the local
    time that many days after the base's is one that the host's zone shows
    (a transition does not skip it): the time returned is the one
    [getCurrentDateTime] prints for the base.  In a zone that keeps one
    offset this holds of every base and amount. *)
Theorem whole_days_keep_time tza ds u ms t :
  numeral ds ->
  u ∈ ["day"; "days"; "week"; "weeks"] ->
  unitLength u = Some ms ->
  (forall r,
     shown tza (LocalTime tza t + parseInt (string_of_list_ascii ds) * ms) ->
     calculateRelativeTime tza (inPhrase ds u) (Some t) = Ok r ->
     exists now,
       getCurrentDateTime tza (Some t) = Ok now /\ time r = time now)
  /\ (forall (offset : Z) r,
        calculateRelativeTime offset (inPhrase ds u) (Some t) = Ok r ->
        exists now,
          getCurrentDateTime offset (Some t) = Ok now /\ time r = time now).
Proof.
  intros Hds Hu Hms.
  assert (Hlen : exists k, ms = k * msPerDay).
  { each_member Hu; injection Hms as <-; [exists 1 | exists 1 | exists 7
    | exists 7]; reflexivity. }
  destruct Hlen as (k & Hk).
  assert (Hany : forall tz r,
            shown tz (LocalTime tz t
                      + parseInt (string_of_list_ascii ds) * ms) ->
            calculateRelativeTime tz (inPhrase ds u) (Some t) = Ok r ->
            exists now,
              getCurrentDateTime tz (Some t) = Ok now /\ time r = time now).
  { intros tz r Hshown Hr. rewrite FormatFacts.getCurrentDateTime_ok.
    eexists. split; [reflexivity |]. cbn [time].
    rewrite (clock_of_shown _ _ _ _ _ _ Hds Hms Hshown Hr). subst ms.
    replace (LocalTime tz t
             + parseInt (string_of_list_ascii ds) * (k * msPerDay))
      with (LocalTime tz t
            + parseInt (string_of_list_ascii ds) * k * msPerDay) by lia.
    apply DateFacts.clockOf_days. }
  split.
  - intros r. apply Hany.
  - intros offset r. apply Hany, shown_fixed.
Qed.

End ResolverFacts.


(** ** From a calendar date to a day number and back *)

Module CalendarFacts.
Import JSString JSDate Calendar TimeUtils Units.

Lemma DayFromYear_mono y y' : y <= y' -> DayFromYear y <= DayFromYear y'.
Proof.
  intros H. replace y' with (y + (y' - y)) by lia.
  assert (Hn : 0 <= y' - y) by lia. revert Hn.
  generalize (y' - y) as n. intros n.
  apply (natlike_ind (fun n => DayFromYear y <= DayFromYear (y + n))).
  - rewrite Z.add_0_r. lia.
  - intros k Hk IH. replace (y + Z.succ k) with (y + k + 1) by lia.
    rewrite DateFacts.DayFromYear_step. unfold DaysInYear.
    destruct (isLeap _); lia.
Qed.

Lemma YearFromDay_unique y d :
  DayFromYear y <= d < DayFromYear (y + 1) -> YearFromDay d = y.
Proof.
  intros H. pose proof (DateFacts.YearFromDay_spec d) as Hs.
  destruct (Z.lt_trichotomy (YearFromDay d) y) as [Hlt | [Heq | Hgt]];
    [| exact Heq |].
  - pose proof (DayFromYear_mono (YearFromDay d + 1) y ltac:(lia)). lia.
  - pose proof (DayFromYear_mono (y + 1) (YearFromDay d) ltac:(lia)). lia.
Qed.

Lemma Day_MakeDate day tod :
  0 <= tod < msPerDay ->
  Day (MakeDate day tod) = day /\ TimeWithinDay (MakeDate day tod) = tod.
Proof.
  unfold Day, TimeWithinDay, MakeDate, msPerDay. intros H.
  split; Z.to_euclidean_division_equations; lia.
Qed.

Lemma monthStart_next mn leap :
  0 <= mn < 11 ->
  monthStart (mn + 1) leap = monthStart mn leap + daysInMonth mn leap.
Proof.
  intros H.
  assert (Hc : mn = 0 \/ mn = 1 \/ mn = 2 \/ mn = 3 \/ mn = 4 \/ mn = 5
               \/ mn = 6 \/ mn = 7 \/ mn = 8 \/ mn = 9 \/ mn = 10) by lia.
  repeat destruct Hc as [-> | Hc]; try subst mn;
    match goal with
    | |- monthStart ?a _ = _ =>
        let v := eval vm_compute in a in change a with v
    end;
    cbn [monthStart daysInMonth]; lia.
Qed.

(** The fields of the day that [MakeDay] reaches for a date that exists
    in its month. *)
Lemma fields_of_date y mn dt tod :
  0 <= mn <= 11 -> 1 <= dt <= daysInMonth mn (leapOf y) ->
  0 <= tod < msPerDay ->
  let t := MakeDate (DayFromYear y + monthStart mn (leapOf y) + dt - 1) tod in
  YearFromTime t = y /\ MonthFromTime t = mn /\ DateFromTime t = dt
  /\ TimeWithinDay t = tod.
Proof.
  intros Hmn Hdt Htod t.
  destruct (Day_MakeDate (DayFromYear y + monthStart mn (leapOf y) + dt - 1)
              tod Htod) as (Hday & Htw).
  fold t in Hday, Htw.
  assert (Hc : mn = 0 \/ mn = 1 \/ mn = 2 \/ mn = 3 \/ mn = 4 \/ mn = 5
               \/ mn = 6 \/ mn = 7 \/ mn = 8 \/ mn = 9 \/ mn = 10 \/ mn = 11)
    by lia.
  assert (Hleap : leapOf y = 0 \/ leapOf y = 1)
    by (unfold leapOf; destruct (isLeap y); lia).
  assert (Hlen : DaysInYear y = 365 + leapOf y)
    by (unfold DaysInYear, leapOf; destruct (isLeap y); lia).
  assert (Hy : YearFromTime t = y).
  { unfold YearFromTime. rewrite Hday. apply YearFromDay_unique.
    rewrite DateFacts.DayFromYear_step, Hlen.
    repeat destruct Hc as [-> | Hc]; try subst mn;
      cbn [monthStart daysInMonth] in *; lia. }
  assert (Hdwy : DayWithinYear t = monthStart mn (leapOf y) + dt - 1)
    by (unfold DayWithinYear; rewrite Hy, Hday; lia).
  assert (Hil : InLeapYear t = leapOf y)
    by (unfold InLeapYear, leapOf; rewrite Hy; reflexivity).
  assert (Hm : MonthFromTime t = mn).
  { unfold MonthFromTime. rewrite Hdwy, Hil.
    repeat destruct Hc as [-> | Hc]; try subst mn;
      cbn [monthStart daysInMonth] in *;
      repeat match goal with
        | |- context [if ?a <? ?b then _ else _] =>
            destruct (Z.ltb_spec a b); try lia
        end. }
  repeat split; try assumption.
  unfold DateFromTime. rewrite Hm, Hdwy, Hil. lia.
Qed.

(** Every instant falls on a date that exists in its month. *)
Lemma date_in_month t :
  0 <= MonthFromTime t <= 11 /\
  1 <= DateFromTime t <= daysInMonth (MonthFromTime t) (InLeapYear t).
Proof.
  pose proof (DateFacts.DayWithinYear_range t) as Hr.
  assert (Hlen : DaysInYear (YearFromTime t) = 365 + InLeapYear t)
    by (unfold DaysInYear, InLeapYear; destruct (isLeap _); lia).
  assert (Hleap : InLeapYear t = 0 \/ InLeapYear t = 1)
    by (unfold InLeapYear; destruct (isLeap _); lia).
  unfold DateFromTime, MonthFromTime.
  repeat match goal with
    | |- context [if ?a <? ?b then _ else _] =>
        destruct (Z.ltb_spec a b)
    end; cbn [monthStart daysInMonth]; lia.
Qed.

(** The fields of the day that [MakeDay] reaches for any day of the month
    up to 31: a day that the month does not have spills into the next
    month. *)
Lemma MakeDay_fields y m dt tod :
  1 <= dt <= 31 -> 0 <= tod < msPerDay ->
  let ym := y + m / 12 in
  let mn := m mod 12 in
  let len := daysInMonth mn (leapOf ym) in
  let t := MakeDate (MakeDay y m dt) tod in
  TimeWithinDay t = tod /\ YearFromTime t = ym /\
  if dt <=? len
  then MonthFromTime t = mn /\ DateFromTime t = dt
  else MonthFromTime t = mn + 1 /\ DateFromTime t = dt - len.
Proof.
  intros Hdt Htod ym mn len t.
  assert (Hmn : 0 <= mn < 12) by (apply Z.mod_pos_bound; lia).
  assert (Hleap : leapOf ym = 0 \/ leapOf ym = 1)
    by (unfold leapOf; destruct (isLeap ym); lia).
  assert (Hlen : 28 <= len <= 31).
  { unfold len, daysInMonth.
    repeat match goal with |- context [match ?x with _ => _ end] =>
      destruct x end; lia. }
  unfold t, MakeDay. fold ym mn. fold (leapOf ym).
  destruct (Z.leb_spec dt len) as [Hle | Hgt].
  - destruct (fields_of_date ym mn dt tod) as (Hy & Hm & Hd & Htw);
      [lia | fold len; lia | lia |].
    repeat split; assumption.
  - assert (Hnot11 : mn < 11).
    { destruct (Z.eq_dec mn 11) as [E |]; [| lia].
      unfold len in Hgt. rewrite E in Hgt. cbn in Hgt. lia. }
    assert (Hnext : 28 <= daysInMonth (mn + 1) (leapOf ym)).
    { unfold daysInMonth.
      repeat match goal with |- context [match ?x with _ => _ end] =>
        destruct x end; lia. }
    destruct (fields_of_date ym (mn + 1) (dt - len) tod)
      as (Hy & Hm & Hd & Htw); [lia | lia | lia |].
    rewrite (monthStart_next mn (leapOf ym)) in Hy, Hm, Hd, Htw by lia.
    fold len in Hy, Hm, Hd, Htw.
    replace (DayFromYear ym + (monthStart mn (leapOf ym) + len)
             + (dt - len) - 1)
      with (DayFromYear ym + monthStart mn (leapOf ym) + dt - 1)
      in Hy, Hm, Hd, Htw by lia.
    repeat split; assumption.
Qed.

Lemma TimeWithinDay_range t : 0 <= TimeWithinDay t < msPerDay.
Proof. unfold TimeWithinDay, msPerDay. apply Z.mod_pos_bound. lia. Qed.

Lemma date_at_most_31 t : 1 <= DateFromTime t <= 31.
Proof.
  destruct (date_in_month t) as (_ & H).
  assert (Hleap : InLeapYear t = 0 \/ InLeapYear t = 1)
    by (unfold InLeapYear; destruct (isLeap _); lia).
  assert (daysInMonth (MonthFromTime t) (InLeapYear t) <= 31).
  { unfold daysInMonth.
    repeat match goal with |- context [match ?x with _ => _ end] =>
      destruct x end; lia. }
  lia.
Qed.

End CalendarFacts.

(** ** The resolver on months and years *)

Module MonthYearFacts.
Import CodeUnit RegExp JSString JSDate Calendar TimeUtils Phrases Tactics
  MatchFacts Units.

(** X4: "in N months" sets the month field of the local wall clock to
    the current month plus N without clamping the day: the local time
    reached keeps the time of day, lands in the year and month N months
    on, keeps the day of the month if that month has it, and otherwise
    spills the surplus days into the following month.  The result is the
    instant that the host's zone gives for that local time. *)
Theorem months_without_clamping tza ds u t :
  numeral ds -> u ∈ ["month"; "months"] ->
  let n := parseInt (string_of_list_ascii ds) in
  let l := LocalTime tza t in
  let ym := YearFromTime l + (MonthFromTime l + n) / 12 in
  let mn := (MonthFromTime l + n) mod 12 in
  let len := daysInMonth mn (leapOf ym) in
  exists x,
    calculateRelativeTime tza (inPhrase ds u) (Some t)
    = printed tza (TimeClip (UTC tza x)) /\
    TimeWithinDay x = TimeWithinDay l /\
    YearFromTime x = ym /\
    if DateFromTime l <=? len
    then MonthFromTime x = mn /\ DateFromTime x = DateFromTime l
    else MonthFromTime x = mn + 1 /\ DateFromTime x = DateFromTime l - len.
Proof.
  intros Hds Hu n l ym mn len.
  exists (MakeDate
            (MakeDay (YearFromTime l) (MonthFromTime l + n) (DateFromTime l))
            (TimeWithinDay l)).
  split.
  - rewrite ResolverFacts.resolver_on_phrase;
      [| done | unfold unitNames; set_unfold; tauto].
    each_member Hu; reflexivity.
  - apply (CalendarFacts.MakeDay_fields (YearFromTime l)
             (MonthFromTime l + n) (DateFromTime l) (TimeWithinDay l)).
    + apply CalendarFacts.date_at_most_31.
    + apply CalendarFacts.TimeWithinDay_range.
Qed.

(** X5: "in N years" keeps the month, the day of the month and the time
    of day of the local wall clock, N years on; the one exception is 29
    February, which becomes 1 March when the year reached is not a leap
    year.  The result is the instant that the host's zone gives for that
    local time. *)
Theorem years_keep_month_and_day tza ds u t :
  numeral ds -> u ∈ ["year"; "years"] ->
  let n := parseInt (string_of_list_ascii ds) in
  let l := LocalTime tza t in
  let y' := YearFromTime l + n in
  exists x,
    calculateRelativeTime tza (inPhrase ds u) (Some t)
    = printed tza (TimeClip (UTC tza x)) /\
    TimeWithinDay x = TimeWithinDay l /\
    YearFromTime x = y' /\
    if (MonthFromTime l =? 1) && (DateFromTime l =? 29) && negb (isLeap y')
    then MonthFromTime x = 2 /\ DateFromTime x = 1
    else MonthFromTime x = MonthFromTime l
         /\ DateFromTime x = DateFromTime l.
Proof.
  intros Hds Hu n l y'.
  exists (MakeDate
            (MakeDay (YearFromTime l + n) (MonthFromTime l) (DateFromTime l))
            (TimeWithinDay l)).
  split.
  - rewrite ResolverFacts.resolver_on_phrase;
      [| done | unfold unitNames; set_unfold; tauto].
    each_member Hu; reflexivity.
  - destruct (CalendarFacts.date_in_month l) as (Hm & Hd).
    pose proof (CalendarFacts.MakeDay_fields (YearFromTime l + n)
                  (MonthFromTime l) (DateFromTime l) (TimeWithinDay l)
                  (CalendarFacts.date_at_most_31 l)
                  (CalendarFacts.TimeWithinDay_range l)) as H.
    cbv zeta in H.
    rewrite (Z.div_small (MonthFromTime l) 12),
      (Z.mod_small (MonthFromTime l) 12), Z.add_0_r in H by lia.
    fold y' in H. destruct H as (Htw & Hy & H).
    split; [exact Htw |]. split; [exact Hy |].
    assert (Hleap : InLeapYear l = 0 \/ InLeapYear l = 1)
      by (unfold InLeapYear; destruct (isLeap _); lia).
    unfold leapOf in H.
    assert (Hc : MonthFromTime l = 0 \/ MonthFromTime l = 1
                 \/ MonthFromTime l = 2 \/ MonthFromTime l = 3
                 \/ MonthFromTime l = 4 \/ MonthFromTime l = 5
                 \/ MonthFromTime l = 6 \/ MonthFromTime l = 7
                 \/ MonthFromTime l = 8 \/ MonthFromTime l = 9
                 \/ MonthFromTime l = 10 \/ MonthFromTime l = 11) by lia.
    repeat destruct Hc as [Hc | Hc]; rewrite Hc in *;
      cbn [daysInMonth Z.eqb Pos.eqb andb] in *;
      destruct (isLeap y'); cbn [negb andb] in *;
      repeat match goal with
        | H : context [?a <=? ?b] |- _ => destruct (Z.leb_spec a b); try lia
        | |- context [?a =? ?b] => destruct (Z.eqb_spec a b); try lia
        end;
      cbn [andb]; fold y'; try assumption;
      destruct H as (H1 & H2); rewrite H1, H2; lia.
Qed.

End MonthYearFacts.

(** ** What the validator's patterns accept *)

Module ShapeFacts.
Import CodeUnit RegExp JSString GeminiService Shapes.

(** A pattern that opens with [^] matches at the start of the text or
    nowhere. *)
Lemma bol_later ic R c l : search ic (Cat Bol R) (Some c) l = None.
Proof.
  revert c. induction l as [| c' l IH]; intros c; cbn; [reflexivity |].
  apply IH.
Qed.

Lemma bol_first ic R l :
  search ic (Cat Bol R) None l = matchAt ic (Cat Bol R) None l.
Proof.
  destruct l as [| c l]; cbn [search];
    destruct (matchAt ic (Cat Bol R) None _); try reflexivity.
  apply bol_later.
Qed.

Lemma timeRegex_test s : test timeRegex s = isTimeShape s.
Proof.
  unfold test, match_, isTimeShape, timeRegex. cbn [source ignoreCase cat].
  rewrite bol_first. unfold matchAt. generalize (list_ascii_of_string s) as l.
  intros l. cbn [m prev rest caps list_ascii_of_string].
  anchored l 6.
Qed.

Lemma dateRegex_test s : test dateRegex s = isDateShape s.
Proof.
  unfold test, match_, isDateShape, dateRegex. cbn [source ignoreCase cat].
  rewrite bol_first. unfold matchAt. generalize (list_ascii_of_string s) as l.
  intros l. cbn [m prev rest caps list_ascii_of_string].
  anchored l 11.
Qed.

(** X10: the validator's patterns look at the shape of the text only.
    The date pattern accepts exactly four digits, a hyphen, two digits, a
    hyphen and two digits, and the time pattern exactly two digits, a
    colon and two digits: month, day, hour and minute are not checked
    against the calendar or the clock. *)
Theorem patterns_check_shape_only s :
  test dateRegex s = isDateShape s /\ test timeRegex s = isTimeShape s.
Proof.
  split.
  - unfold test, match_, isDateShape, dateRegex. cbn [source ignoreCase cat].
    rewrite bol_first. unfold matchAt.
    generalize (list_ascii_of_string s) as l. intros l.
    cbn [m prev rest caps list_ascii_of_string]. anchored l 11.
  - unfold test, match_, isTimeShape, timeRegex. cbn [source ignoreCase cat].
    rewrite bol_first. unfold matchAt.
    generalize (list_ascii_of_string s) as l. intros l.
    cbn [m prev rest caps list_ascii_of_string]. anchored l 6.
Qed.

Lemma digitChar_isDigit n : isDigit (digitChar n) = true.
Proof.
  unfold digitChar.
  assert (H : 0 <= n mod 10 < 10) by (apply Z.mod_pos_bound; lia).
  assert (Hc : n mod 10 = 0 \/ n mod 10 = 1 \/ n mod 10 = 2 \/ n mod 10 = 3
               \/ n mod 10 = 4 \/ n mod 10 = 5 \/ n mod 10 = 6
               \/ n mod 10 = 7 \/ n mod 10 = 8 \/ n mod 10 = 9) by lia.
  repeat destruct Hc as [-> | Hc]; try rewrite Hc; reflexivity.
Qed.

(** The clock that the resolver prints always has the shape of a time. *)
Lemma clock_has_time_shape t : isTimeShape (Calendar.clockOf t) = true.
Proof.
  unfold Calendar.clockOf, isTimeShape, pad.
  cbv [decimal app string_of_list_ascii String.append list_ascii_of_string].
  rewrite !digitChar_isDigit. reflexivity.
Qed.

(** The date that the resolver prints has the shape of a date exactly
    when the year has four digits. *)
Lemma date_has_date_shape t :
  isDateShape (Calendar.dateOf t)
  = (0 <=? JSDate.YearFromTime t) && (JSDate.YearFromTime t <=? 9999).
Proof.
  unfold Calendar.dateOf, isDateShape, JSDate.isoYear, pad.
  destruct ((0 <=? JSDate.YearFromTime t) && (JSDate.YearFromTime t <=? 9999));
    [| destruct (JSDate.YearFromTime t <? 0)];
    cbv [decimal app string_of_list_ascii String.append
         list_ascii_of_string];
    rewrite ?digitChar_isDigit; reflexivity.
Qed.

End ShapeFacts.

(** ** Letter case and surrounding white space *)

Module NormalFacts.
Import CodeUnit RegExp JSString JSDate TimeUtils Shapes.

Lemma toLower_idem c : toLower (toLower c) = toLower c.
Proof. destruct c as [[] [] [] [] [] [] [] []]; reflexivity. Qed.

Lemma toLower_space c : isSpace (toLower c) = isSpace c.
Proof. destruct c as [[] [] [] [] [] [] [] []]; reflexivity. Qed.

Lemma trimStart_lower l :
  trimStart (map toLower l) = map toLower (trimStart l).
Proof.
  induction l as [| c l IH]; [reflexivity |]. cbn [map trimStart].
  rewrite toLower_space. by destruct (isSpace c).
Qed.

Lemma trimStart_blank ws l : blank ws -> trimStart (ws ++ l) = trimStart l.
Proof.
  induction 1 as [| c ws Hc _ IH]; [reflexivity |].
  cbn [app trimStart]. by rewrite Hc.
Qed.

Lemma trimStart_blank_nil ws : blank ws -> trimStart ws = [].
Proof.
  intros H. rewrite <- (app_nil_r ws). by rewrite trimStart_blank.
Qed.

Lemma blank_rev ws : blank ws -> blank (rev ws).
Proof. unfold blank. apply Forall_rev. Qed.

Lemma blank_lower ws : blank ws -> blank (map toLower ws).
Proof.
  unfold blank. induction 1 as [| c ws Hc _ IH]; constructor; [| exact IH].
  by rewrite toLower_space.
Qed.

(** White space behind the text goes with the white space that was
    already at its end. *)
Lemma trim_behind l ws :
  blank ws ->
  trimStart (rev (trimStart (l ++ ws))) = trimStart (rev (trimStart l)).
Proof.
  intros Hws. induction l as [| c l IH].
  - cbn [app]. by rewrite (trimStart_blank_nil ws Hws).
  - cbn [app trimStart]. destruct (isSpace c); [exact IH |].
    change (c :: l ++ ws) with ((c :: l) ++ ws).
    rewrite rev_app_distr. apply trimStart_blank. by apply blank_rev.
Qed.

Lemma trim_padded before s behind :
  blank before -> blank behind ->
  trim (toLowerCase (padded before s behind)) = trim (toLowerCase s).
Proof.
  intros Hb He. unfold trim, toLowerCase, padded.
  rewrite !list_ascii_of_string_of_list_ascii. f_equal. f_equal.
  rewrite !map_app.
  rewrite (trimStart_blank _ _ (blank_lower _ Hb)).
  apply trim_behind. by apply blank_lower.
Qed.

Lemma lower_lower s : toLowerCase (toLowerCase s) = toLowerCase s.
Proof.
  unfold toLowerCase. rewrite list_ascii_of_string_of_list_ascii. f_equal.
  rewrite map_map. apply map_ext. intros c. apply toLower_idem.
Qed.

(** X6: the resolver ignores the case of letters and the white space
    around the phrase: a phrase with white space before and behind it
    resolves as the phrase alone, and the phrase in lower case as the
    phrase itself. *)
Theorem resolver_ignores_case_and_padding tza s before behind base :
  blank before -> blank behind ->
  calculateRelativeTime tza (padded before s behind) base
  = calculateRelativeTime tza s base
  /\ calculateRelativeTime tza (toLowerCase s) base
     = calculateRelativeTime tza s base.
Proof.
  intros Hb He. unfold calculateRelativeTime.
  by rewrite (trim_padded _ _ _ Hb He), lower_lower.
Qed.

End NormalFacts.

(** ** The phrase that extraction returns *)

Module ExtractFacts.
Import CodeUnit RegExp JSString TimeUtils.

Lemma search_at ic r p l res :
  search ic r p l = Some res ->
  exists before q l', l = before ++ l' /\ matchAt ic r q l' = Some res.
Proof.
  revert p. induction l as [| c tl IH]; intros p; cbn [search].
  - destruct (matchAt ic r p []) eqn:E; [| discriminate].
    intros [= <-]. by exists [], p, [].
  - destruct (matchAt ic r p (c :: tl)) eqn:E.
    + intros [= <-]. by exists [], p, (c :: tl).
    + intros H. destruct (IH _ H) as (before & q & l' & -> & Hm).
      by exists (c :: before), q, l'.
Qed.

Lemma matchAt_prefix ic r p l res :
  matchAt ic r p l = Some res ->
  exists s behind, res !! 0%nat = Some (string_of_list_ascii s)
                   /\ l = s ++ behind.
Proof.
  unfold matchAt. destruct (m ic r Some _) as [st1 |]; [| discriminate].
  intros [= <-]. unfold consumed. cbn [rest map].
  eexists _, _. split; [reflexivity |]. symmetry. apply firstn_skipn.
Qed.

Lemma match_within s pat mt :
  match_ s pat = Some mt ->
  exists before phrase behind,
    mt !! 0%nat = Some (string_of_list_ascii phrase)
    /\ list_ascii_of_string s = before ++ phrase ++ behind.
Proof.
  unfold match_. intros H.
  destruct (search_at _ _ _ _ _ H) as (before & q & l' & Hl & Hm).
  destruct (matchAt_prefix _ _ _ _ _ Hm) as (phrase & behind & H0 & ->).
  by exists before, phrase, behind.
Qed.

(** X9: the phrase that extraction returns is a non-empty piece of the
    text, copied as it stands there. *)
Theorem extracted_is_in_text text phrase :
  extractRelativeTimeExpression text = Some phrase ->
  phrase ≠ ""
  /\ exists before behind,
       list_ascii_of_string text
       = before ++ list_ascii_of_string phrase ++ behind.
Proof.
  intros H. split; [by apply (EngineFacts.extracted_nonempty text) |].
  revert H. unfold extractRelativeTimeExpression. cbn [firstMatch].
  destruct (match_ text inPattern) as [mt |] eqn:E1;
    [| destruct (match_ text fromNowPattern) as [mt |] eqn:E2;
       [| discriminate]];
    intros [= <-];
    [destruct (match_within _ _ _ E1) as (before & ph & behind & -> & Hl)
    |destruct (match_within _ _ _ E2) as (before & ph & behind & -> & Hl)];
    exists before, behind; cbn [default from_option id];
    by rewrite list_ascii_of_string_of_list_ascii.
Qed.

End ExtractFacts.

(** ** The resolver's output and the validator *)

Module PipelineFacts.
Import CodeUnit RegExp JSString JSDate JSValue Calendar TimeUtils
  GeminiService Checks Shapes.

Lemma printed_format tza target r :
  printed tza target = Ok r ->
  test timeRegex (time r) = true
  /\ exists t',
       date r = dateOf t' /\ time r = localClockOf tza t'
       /\ test dateRegex (date r)
          = (0 <=? YearFromTime t') && (YearFromTime t' <=? 9999).
Proof.
  destruct target as [t' |]; [| discriminate]. intros [= <-]. cbn [date time].
  split.
  - rewrite ShapeFacts.timeRegex_test. apply ShapeFacts.clock_has_time_shape.
  - exists t'. repeat split.
    rewrite ShapeFacts.dateRegex_test. apply ShapeFacts.date_has_date_shape.
Qed.

(** X7: whatever the resolver and [getCurrentDateTime] return passes the
    validator's time check, and passes its date check exactly when the
    UTC year of the instant printed has four digits (0 to 9999). *)
Theorem output_format tza r :
  (exists s base, calculateRelativeTime tza s base = Ok r)
  \/ (exists clock, getCurrentDateTime tza clock = Ok r) ->
  test timeRegex (time r) = true
  /\ exists t',
       date r = dateOf t' /\ time r = localClockOf tza t'
       /\ test dateRegex (date r)
          = (0 <=? YearFromTime t') && (YearFromTime t' <=? 9999).
Proof.
  intros [(s & base & H) | (clock & H)].
  - destruct (FormatFacts.resolver_prints tza s base) as (target & Ht).
    rewrite Ht in H. exact (printed_format _ _ _ H).
  - unfold getCurrentDateTime in H. rewrite FormatFacts.print_target in H.
    exact (printed_format _ _ _ H).
Qed.

Section Pipeline.

Context {number : Type}.
Variable numberToBoolean : number -> bool.
Variable numberToString : number -> string.
Variable tza : zone.

Variable JSON_parse : string -> result (gmap string (value number)).

Abbreviation postProcess := (postProcessScheduleData number tza).
Abbreviation validate :=
  (validateScheduleData number numberToBoolean numberToString).
Abbreviation accepts := (Checks.accepts numberToBoolean numberToString).
Abbreviation truthy := (ToBoolean numberToBoolean).
Abbreviation process :=
  (processSchedulePrompt number numberToBoolean numberToString tza JSON_parse).

Implicit Types scheduleData processedData : gmap string (value number).

Lemma time_shape_nonempty s : isTimeShape s = true -> s ≠ "".
Proof. by intros H ->. Qed.

Lemma date_shape_nonempty s : isDateShape s = true -> s ≠ "".
Proof. by intros H ->. Qed.

Lemma truthy_text s : s ≠ "" -> truthy (Some (VStr s)) = true.
Proof. intros H. cbn. by apply negb_true_iff, String.eqb_neq. Qed.

Lemma typeOk_truthy scheduleData :
  typeOk scheduleData = true -> truthy (scheduleData !! "type") = true.
Proof.
  unfold typeOk, includes.
  destruct (scheduleData !! "type") as [[| | | s | |] |]; try discriminate.
  intros H. apply truthy_text. by intros ->.
Qed.

(** X8: when post-processing overrides the date and the time, what the
    model wrote there no longer matters to the validator: the candidate is
    accepted exactly when its title is truthy, its type is one of the four
    names, its priority is absent, falsy or one of the three names, and
    the date that the resolver printed has a four-digit year. *)
Theorem override_settles_date_and_time scheduleData userPrompt clock phrase r :
  hasRelativeTimeExpression userPrompt = true ->
  extractRelativeTimeExpression userPrompt = Some phrase ->
  calculateRelativeTime tza phrase clock = Ok r ->
  exists processedData,
    postProcess scheduleData userPrompt clock = Ok processedData
    /\ (accepts processedData <->
        truthy (scheduleData !! "title") = true
        /\ typeOk scheduleData = true
        /\ priorityOk numberToBoolean scheduleData = true
        /\ test dateRegex (date r) = true).
Proof.
  intros Hhas Hext Hcalc.
  exists (<["time" := VStr (time r)]> (<["date" := VStr (date r)]> scheduleData)).
  split.
  - unfold postProcessScheduleData. rewrite Hhas, Hext.
    pose proof (EngineFacts.extracted_nonempty _ _ Hext) as Hne.
    apply String.eqb_neq in Hne. rewrite Hne. cbn [negb].
    rewrite Hcalc. reflexivity.
  - destruct (FormatFacts.resolver_prints tza phrase clock) as (target & Ht).
    rewrite Ht in Hcalc.
    destruct (printed_format _ _ _ Hcalc) as (Htime & _).
    rewrite ValidatorFacts.accepts_iff.
    unfold requiredOk, typeOk, priorityOk, dateOk, timeOk, textOf.
    set (processedData := <["time" := _]> _).
    assert (Hframe : forall field, field ≠ "date" -> field ≠ "time" ->
              processedData !! field = scheduleData !! field)
      by (intros field Hd Hc; unfold processedData;
          by rewrite !lookup_insert_ne).
    rewrite (Hframe "type"), (Hframe "title"), (Hframe "priority") by done.
    replace (processedData !! "date") with (Some (@VStr number (date r)))
      by (unfold processedData;
          by rewrite lookup_insert_ne, lookup_insert_eq).
    replace (processedData !! "time") with (Some (@VStr number (time r)))
      by (unfold processedData; by rewrite lookup_insert_eq).
    cbn [ToStringOpt ToString].
    rewrite Htime.
    assert (Ht' : truthy (Some (VStr (time r))) = true).
    { apply truthy_text, time_shape_nonempty.
      by rewrite <- ShapeFacts.timeRegex_test. }
    rewrite Ht'.
    split.
    + intros (H1 & H2 & H3 & H4 & _).
      repeat (apply andb_true_iff in H1 as [H1 ?]). done.
    + intros (H1 & H2 & H3 & H4). repeat split; try done.
      rewrite (typeOk_truthy _ H2), H1. cbn [andb].
      rewrite truthy_text; [reflexivity |].
      apply date_shape_nonempty. by rewrite <- ShapeFacts.dateRegex_test.
Qed.

(** Extraction implies detection. *)
Lemma extracted_detected userPrompt phrase :
  extractRelativeTimeExpression userPrompt = Some phrase ->
  hasRelativeTimeExpression userPrompt = true.
Proof.
  unfold extractRelativeTimeExpression, hasRelativeTimeExpression, test.
  cbn [firstMatch existsb].
  destruct (match_ userPrompt inPattern); [done |].
  by destruct (match_ userPrompt fromNowPattern).
Qed.

(** X14: post-processing is decided by extraction alone: the detection
    test and the test that the phrase is not empty never stop an
    extracted phrase.  Without a phrase the candidate comes back as it
    was; with one, its date and time are those the resolver computes, or
    the resolver's exception is passed on. *)
Theorem override_exactly_when_extracted scheduleData userPrompt clock :
  postProcess scheduleData userPrompt clock
  = match extractRelativeTimeExpression userPrompt with
    | None => Ok scheduleData
    | Some phrase =>
        match calculateRelativeTime tza phrase clock with
        | Ok r =>
            Ok (<["time" := VStr (time r)]>
                  (<["date" := VStr (date r)]> scheduleData))
        | Throw e => Throw e
        end
    end.
Proof.
  unfold postProcessScheduleData.
  destruct (extractRelativeTimeExpression userPrompt) as [phrase |] eqn:E.
  - pose proof (EngineFacts.extracted_nonempty _ _ E) as Hne.
    apply String.eqb_neq in Hne. rewrite Hne. cbn [negb].
    rewrite (extracted_detected _ _ E).
    by destruct (calculateRelativeTime tza phrase clock).
  - by destruct (hasRelativeTimeExpression userPrompt).
Qed.

(** X15: a successful result of the orchestrator carries an object that
    the validator accepts, made from the object parsed out of the reply
    (the span from its first opening brace through its last closing
    brace): that object itself when extraction finds no phrase in the
    prompt, and otherwise that object with its date and time replaced by
    what the resolver computes for the phrase. *)
Theorem success_carries_resolved_time userPrompt reply clock :
  success (process userPrompt reply clock) = true ->
  exists text span parsed processedData,
    reply = Ok text
    /\ SpecReading.firstToLast (list_ascii_of_string text) = Some span
    /\ JSON_parse (string_of_list_ascii span) = Ok parsed
    /\ process userPrompt reply clock
       = {| success := true; data := Some processedData; error := None |}
    /\ accepts processedData
    /\ match extractRelativeTimeExpression userPrompt with
       | None => processedData = parsed
       | Some phrase =>
           exists r,
             calculateRelativeTime tza phrase clock = Ok r
             /\ processedData
                = <["time" := VStr (time r)]>
                    (<["date" := VStr (date r)]> parsed)
       end.
Proof.
  unfold processSchedulePrompt.
  destruct reply as [text | e]; [| by cbn].
  rewrite (ServiceFacts.try_steps numberToBoolean numberToString tza
             JSON_parse).
  destruct (SpecReading.firstToLast _) as [span |] eqn:Hspan; [| by cbn].
  destruct (JSON_parse (string_of_list_ascii span)) as [parsed | e]
    eqn:Hparse; [| by cbn].
  cbv [mbind result_bind].
  destruct (postProcess parsed userPrompt clock) as [processedData | e]
    eqn:Hpost; [| by cbn].
  destruct (validate processedData) as [verdict | e] eqn:Hval; [| by cbn].
  destruct verdict as [[] line]; cbn [fst negb]; [| by cbn].
  intros _. exists text, span, parsed, processedData.
  do 4 (split; [done |]). split.
  - unfold Checks.accepts. rewrite Hval.
    by rewrite (ValidatorFacts.validate_true_None _ _ _ _ Hval eq_refl).
  - revert Hpost. unfold postProcessScheduleData.
    destruct (extractRelativeTimeExpression userPrompt) as [phrase |] eqn:E.
    + pose proof (EngineFacts.extracted_nonempty _ _ E) as Hne.
      apply String.eqb_neq in Hne. rewrite Hne. cbn [negb].
      rewrite (extracted_detected _ _ E).
      destruct (calculateRelativeTime tza phrase clock) as [r | e];
        [| discriminate].
      intros [= <-]. by exists r.
    + destruct (hasRelativeTimeExpression userPrompt); by intros [= <-].
Qed.

End Pipeline.

End PipelineFacts.

(** ** Reading a match backwards *)

Module InversionFacts.
Import CodeUnit RegExp JSString TimeUtils Phrases Shapes Selected Tactics
  MatchFacts.

Lemma lit_inv ic s k st r :
  lit ic s k st = Some r ->
  exists cs tl,
    rest st = cs ++ tl
    /\ Forall2 (fun p c => eqb_cu ic p c = true) s cs
    /\ k (MState (after (prev st) cs) tl (caps st)) = Some r.
Proof.
  revert st. induction s as [| p s IH]; intros st; cbn [lit].
  - intros H. exists [], (rest st). repeat split; [constructor |].
    by destruct st.
  - destruct (rest st) as [| c tl] eqn:E; [discriminate |].
    destruct (eqb_cu ic p c) eqn:Ec; [| discriminate].
    intros H. destruct (IH _ H) as (cs & tl' & Hr & Hcs & Hk).
    cbn [rest step prev caps] in Hr, Hk. subst tl.
    exists (c :: cs), tl'. repeat split; [by constructor |].
    by rewrite after_cons.
Qed.

Lemma greedy_inv cls k p l cs r :
  greedy cls k p l cs = Some r ->
  exists run tl,
    l = run ++ tl /\ Forall (fun c => cls c = true) run
    /\ k (MState (after p run) tl cs) = Some r.
Proof.
  revert p. induction l as [| c l IH]; intros p; cbn [greedy].
  - intros H. by exists [], [].
  - destruct (cls c) eqn:Ec; [| intros H; by exists [], (c :: l)].
    destruct (greedy cls k (Some c) l cs) as [r' |] eqn:E.
    + intros [= <-]. destruct (IH _ E) as (run & tl & -> & Hrun & Hk).
      exists (c :: run), tl. repeat split; [by constructor |].
      by rewrite after_cons.
    + intros H. by exists [], (c :: l).
Qed.

Lemma plus_inv ic cls k st r :
  m ic (Plus cls) k st = Some r ->
  exists run tl,
    rest st = run ++ tl /\ run ≠ []
    /\ Forall (fun c => cls c = true) run
    /\ k (MState (after (prev st) run) tl (caps st)) = Some r.
Proof.
  cbn [m]. destruct (rest st) as [| c l]; [discriminate |].
  destruct (cls c) eqn:Ec; [| discriminate]. intros H.
  destruct (greedy_inv _ _ _ _ _ _ H) as (run & tl & -> & Hrun & Hk).
  exists (c :: run), tl. repeat split; [done | by constructor |].
  by rewrite after_cons.
Qed.

Lemma alt_inv ic r rs k st res :
  m ic (alt r rs) k st = Some res ->
  exists r', r' ∈ r :: rs /\ m ic r' k st = Some res.
Proof.
  revert r. induction rs as [| r2 rs IH]; intros r; cbn [alt].
  - intros H. exists r. split; [set_solver | done].
  - cbn [m]. destruct (m ic r k st) eqn:E.
    + intros [= <-]. exists r. split; [set_solver | done].
    + intros H. destruct (IH _ H) as (r' & Hin & Hr').
      exists r'. split; [set_solver | done].
Qed.

Lemma units_inv ic k st r :
  m ic units k st = Some r ->
  exists u cu tl,
    u ∈ unitNames /\ rest st = cu ++ tl
    /\ Forall2 (fun p c => eqb_cu ic p c = true) (list_ascii_of_string u) cu
    /\ k (MState (after (prev st) cu) tl (caps st ++ [cu])) = Some r.
Proof.
  unfold units. cbn [m]. intros H.
  destruct (alt_inv _ _ _ _ _ _ H) as (r' & Hin & Hr').
  assert (Hu : exists u, u ∈ unitNames /\ r' = Lit u).
  { unfold unitNames. set_unfold.
    repeat destruct Hin as [-> | Hin]; try contradiction;
      eexists; (split; [| reflexivity]); tauto. }
  destruct Hu as (u & Hu & ->). cbn [m] in Hr'.
  destruct (lit_inv _ _ _ _ _ Hr') as (cu & tl & Hrest & Hcu & Hk).
  exists u, cu, tl. repeat split; try done.
  cbn [prev rest caps] in Hk. unfold consumed in Hk. cbn [rest] in Hk.
  rewrite Hrest, take_all_but in Hk. exact Hk.
Qed.

Lemma cat_inv ic r1 r2 k st r :
  m ic (Cat r1 r2) k st = Some r -> m ic r1 (m ic r2 k) st = Some r.
Proof. done. Qed.

Lemma wordB_inv ic k st r : m ic WordB k st = Some r -> k st = Some r.
Proof. cbn [m]. by destruct (xorb _ _). Qed.

Lemma Lit_inv ic s k st r :
  m ic (Lit s) k st = Some r ->
  exists cs tl,
    rest st = cs ++ tl
    /\ Forall2 (fun p c => eqb_cu ic p c = true) (list_ascii_of_string s) cs
    /\ k (MState (after (prev st) cs) tl (caps st)) = Some r.
Proof. apply lit_inv. Qed.

(** What the "in" pattern selects where it matches. *)
Lemma inPattern_inv p l res :
  matchAt true (source inPattern) p l = Some res ->
  exists e ds u behind,
    l = e ++ behind /\ res !! 0%nat = Some (string_of_list_ascii e)
    /\ u ∈ unitNames /\ inShape e ds u.
Proof.
  unfold matchAt.
  destruct (m true (source inPattern) Some (MState p l [])) as [st1 |] eqn:E;
    [| discriminate].
  intros [= <-]. revert E.
  cbn [source inPattern cat]. intros H.
  apply cat_inv, wordB_inv, cat_inv in H.
  destruct (Lit_inv _ _ _ _ _ H) as (cin & l1 & Hl & Hcin & H1).
  cbn [rest prev caps] in Hl, H1. subst l. apply cat_inv in H1.
  destruct (plus_inv _ _ _ _ _ H1) as (ws1 & l2 & Hl & Hne1 & Hws1 & H2).
  cbn [rest prev caps] in Hl, H2. subst l1. apply cat_inv in H2.
  destruct (plus_inv _ _ _ _ _ H2) as (ds & l3 & Hl & Hne & Hds & H3).
  cbn [rest prev caps] in Hl, H3. subst l2. apply cat_inv in H3.
  destruct (plus_inv _ _ _ _ _ H3) as (ws2 & l4 & Hl & Hne2 & Hws2 & H4).
  cbn [rest prev caps] in Hl, H4. subst l3. apply cat_inv in H4.
  destruct (units_inv _ _ _ _ H4) as (u & cu & l5 & Hu & Hl & Hcu & H5).
  cbn [rest prev caps] in Hl, H5. subst l4.
  apply wordB_inv in H5. injection H5 as <-.
  exists (cin ++ ws1 ++ ds ++ ws2 ++ cu), ds, u, l5. repeat split.
  - by rewrite <- !app_assoc.
  - cbn [lookup list_lookup map]. do 2 f_equal. unfold consumed.
    cbn [rest].
    replace (cin ++ ws1 ++ ds ++ ws2 ++ cu ++ l5)
      with ((cin ++ ws1 ++ ds ++ ws2 ++ cu) ++ l5)
      by (by rewrite <- !app_assoc).
    apply take_all_but.
  - exact Hu.
  - by exists cin, ws1, ws2, cu.
Qed.

(** What the "from now" pattern selects where it matches. *)
Lemma fromNowPattern_inv p l res :
  matchAt true (source fromNowPattern) p l = Some res ->
  exists e ds u behind,
    l = e ++ behind /\ res !! 0%nat = Some (string_of_list_ascii e)
    /\ u ∈ unitNames /\ fromNowShape e ds u.
Proof.
  unfold matchAt.
  destruct (m true (source fromNowPattern) Some (MState p l []))
    as [st1 |] eqn:E; [| discriminate].
  intros [= <-]. revert E.
  cbn [source fromNowPattern cat]. intros H.
  apply cat_inv, wordB_inv, cat_inv in H.
  destruct (plus_inv _ _ _ _ _ H) as (ds & l1 & Hl & Hne & Hds & H1).
  cbn [rest prev caps] in Hl, H1. subst l. apply cat_inv in H1.
  destruct (plus_inv _ _ _ _ _ H1) as (ws1 & l2 & Hl & Hne1 & Hws1 & H2).
  cbn [rest prev caps] in Hl, H2. subst l1. apply cat_inv in H2.
  destruct (units_inv _ _ _ _ H2) as (u & cu & l3 & Hu & Hl & Hcu & H3).
  cbn [rest prev caps] in Hl, H3. subst l2. apply cat_inv in H3.
  destruct (plus_inv _ _ _ _ _ H3) as (ws2 & l4 & Hl & Hne2 & Hws2 & H4).
  cbn [rest prev caps] in Hl, H4. subst l3. apply cat_inv in H4.
  destruct (Lit_inv _ _ _ _ _ H4) as (cfrom & l5 & Hl & Hfrom & H5).
  cbn [rest prev caps] in Hl, H5. subst l4. apply cat_inv in H5.
  destruct (plus_inv _ _ _ _ _ H5) as (ws3 & l6 & Hl & Hne3 & Hws3 & H6).
  cbn [rest prev caps] in Hl, H6. subst l5. apply cat_inv in H6.
  destruct (Lit_inv _ _ _ _ _ H6) as (cnow & l7 & Hl & Hnow & H7).
  cbn [rest prev caps] in Hl, H7. subst l6.
  apply wordB_inv in H7. injection H7 as <-.
  exists (ds ++ ws1 ++ cu ++ ws2 ++ cfrom ++ ws3 ++ cnow), ds, u, l7.
  repeat split.
  - by rewrite <- !app_assoc.
  - cbn [lookup list_lookup map]. do 2 f_equal. unfold consumed.
    cbn [rest].
    replace (ds ++ ws1 ++ cu ++ ws2 ++ cfrom ++ ws3 ++ cnow ++ l7)
      with ((ds ++ ws1 ++ cu ++ ws2 ++ cfrom ++ ws3 ++ cnow) ++ l7)
      by (by rewrite <- !app_assoc).
    apply take_all_but.
  - exact Hu.
  - by exists ws1, cu, ws2, cfrom, ws3, cnow.
Qed.

End InversionFacts.

(** ** The selected phrases in lower case *)

Module SelectedFacts.
Import CodeUnit RegExp JSString JSDate Calendar TimeUtils Phrases Shapes
  Selected Units Tactics MatchFacts.

Lemma all_units c : In c allUnits.
Proof.
  unfold allUnits. rewrite <- (ascii_nat_embedding c).
  apply List.in_map, List.in_seq.
  pose proof (nat_ascii_bounded c). lia.
Qed.

(** A code unit that the [i] flag takes for a small letter is that letter
    in lower case. *)
Lemma eqb_lower p c :
  isLowerAZ p = true -> eqb_cu true p c = true -> toLower c = p.
Proof.
  assert (H : forallb (fun p => forallb (fun c =>
                implb (isLowerAZ p && eqb_cu true p c)
                  (Ascii.eqb (toLower c) p)) allUnits) allUnits = true)
    by (vm_compute; reflexivity).
  rewrite forallb_forall in H. specialize (H p (all_units p)).
  rewrite forallb_forall in H. specialize (H c (all_units c)).
  intros Hp Hc. rewrite Hp, Hc in H. by apply Ascii.eqb_eq.
Qed.

Lemma spells_lower s cs :
  Forall (fun p => isLowerAZ p = true) (list_ascii_of_string s) ->
  spells s cs -> map toLower cs = list_ascii_of_string s.
Proof.
  unfold spells. generalize (list_ascii_of_string s) as ps. intros ps Hps H.
  induction H as [| p c ps cs Hpc _ IH]; [reflexivity |].
  inversion Hps as [| ? ? Hp Hps']; subst. cbn [map].
  by rewrite (eqb_lower _ _ Hp Hpc), IH.
Qed.

Lemma unit_letters u :
  u ∈ unitNames -> Forall (fun p => isLowerAZ p = true) (list_ascii_of_string u).
Proof. intros Hu. each_unit Hu; repeat constructor. Qed.

Lemma space_lower c : isSpace c = true -> toLower c = c.
Proof.
  destruct c as [[] [] [] [] [] [] [] []]; intros H;
    try (vm_compute in H; discriminate H); reflexivity.
Qed.

Lemma blank_lower_id ws : blank ws -> map toLower ws = ws.
Proof.
  induction 1 as [| c ws Hc _ IH]; [reflexivity |].
  cbn [map]. by rewrite (space_lower _ Hc), IH.
Qed.

Lemma digits_lower_id ds :
  Forall (fun c => isDigit c = true) ds -> map toLower ds = ds.
Proof.
  induction 1 as [| c ds Hc _ IH]; [reflexivity |].
  cbn [map]. by rewrite (digit_toLower _ Hc), IH.
Qed.

(** The phrase that the "in" pattern selects, as the resolver reads it. *)
Lemma inShape_normal e ds u :
  u ∈ unitNames -> inShape e ds u ->
  exists ws1 ws2,
    gap ws1 /\ gap ws2 /\ numeral ds
    /\ trim (toLowerCase (string_of_list_ascii e))
       = string_of_list_ascii
           (list_ascii_of_string "in" ++ ws1 ++ ds ++ ws2
            ++ list_ascii_of_string u).
Proof.
  intros Hu (cin & ws1 & ws2 & cu & -> & Hin & Hg1 & Hds & Hg2 & Hcu).
  exists ws1, ws2. do 3 (split; [done |]).
  unfold toLowerCase. rewrite list_ascii_of_string_of_list_ascii, !map_app.
  rewrite (spells_lower "in" cin ltac:(repeat constructor) Hin).
  rewrite (spells_lower u cu (unit_letters u Hu) Hcu).
  rewrite (blank_lower_id ws1) by apply Hg1.
  rewrite (blank_lower_id ws2) by apply Hg2.
  rewrite (digits_lower_id ds) by apply Hds.
  apply trim_id.
  - intros c [= <-]. reflexivity.
  - rewrite !rev_app_distr.
    each_unit Hu; intros c [= <-]; reflexivity.
Qed.

Lemma space_not_digit c : isSpace c = true -> isDigit c = false.
Proof.
  intros H. destruct (isDigit c) eqn:E; [| reflexivity].
  by rewrite (digit_not_space _ E) in H.
Qed.

Lemma lit_run s k p tl cs :
  lit false s k (MState p (s ++ tl) cs) = k (MState (after p s) tl cs).
Proof.
  revert p. induction s as [| c s IH]; intros p; [reflexivity |].
  cbn [app lit rest eqb_cu]. rewrite Ascii.eqb_refl.
  unfold step. cbn [caps]. by rewrite IH, after_cons.
Qed.

(** A greedy class reads a whole run and no more when what follows is
    not of the class and the continuation accepts there. *)
Lemma plus_run ic cls k run tl p cs r :
  run ≠ [] -> Forall (fun c => cls c = true) run ->
  (forall x, head tl = Some x -> cls x = false) ->
  k (MState (after p run) tl cs) = Some r ->
  m ic (Plus cls) k (MState p (run ++ tl) cs) = Some r.
Proof.
  intros Hne Hrun Htl Hk. destruct Hrun as [| c run Hc Hrun]; [done |].
  cbn [m rest app caps]. rewrite Hc. apply greedy_run; [exact Hrun |].
  rewrite after_cons in Hk.
  destruct tl as [| x tl]; [exact Hk |].
  cbn [greedy]. by rewrite (Htl x eq_refl).
Qed.

Lemma head_run {A} (run tl : list A) : run ≠ [] -> head (run ++ tl) = head run.
Proof. by destruct run. Qed.

Lemma head_class (cls cls' : ascii -> bool) run tl :
  (forall c, cls c = true -> cls' c = false) ->
  run ≠ [] -> Forall (fun c => cls c = true) run ->
  forall x, head (run ++ tl) = Some x -> cls' x = false.
Proof.
  intros Hcls Hne Hrun x. rewrite head_run by done.
  destruct Hrun as [| c run Hc _]; [done |]. intros [= <-]. by apply Hcls.
Qed.

(** The unit at the end of the text, as the pattern without a boundary
    after the unit reads it. *)
Lemma units_read q u cs :
  u ∈ unitNames ->
  exists r,
    m false units Some (MState q (list_ascii_of_string u) cs) = Some r
    /\ caps r = cs ++ [list_ascii_of_string (singular u)].
Proof. intros Hu. each_unit Hu; eexists; split; reflexivity. Qed.

Lemma amountUnit_reads_selected ws1 ds ws2 u :
  gap ws1 -> numeral ds -> gap ws2 -> u ∈ unitNames ->
  exists m0,
    match_ (string_of_list_ascii
              (list_ascii_of_string "in" ++ ws1 ++ ds ++ ws2
               ++ list_ascii_of_string u)) amountUnitPattern
    = Some [m0; string_of_list_ascii ds; singular u].
Proof.
  intros [Hne1 Hws1] [Hne Hds] [Hne2 Hws2] Hu.
  unfold match_. rewrite list_ascii_of_string_of_list_ascii.
  set (q1 := after None (list_ascii_of_string "in")).
  destruct (units_read (after (after (after q1 ws1) ds) ws2) u [ds] Hu)
    as (r & Hr & Hcaps).
  assert (Hm : m false (source amountUnitPattern) Some
                 (MState None (list_ascii_of_string "in" ++ ws1 ++ ds ++ ws2
                               ++ list_ascii_of_string u) []) = Some r).
  { cbn [source amountUnitPattern cat].
    change (m false (Cat (Lit "in") ?R) ?k ?st)
      with (lit false (list_ascii_of_string "in") (m false R k) st).
    rewrite lit_run. fold q1.
    change (m false (Cat (Plus isSpace) ?R) ?k ?st)
      with (m false (Plus isSpace) (m false R k) st).
    apply plus_run; [exact Hne1 | exact Hws1 | |].
    { apply (head_class isDigit); [apply digit_not_space | done | done]. }
    change (m false (Cat (Group (Plus isDigit)) ?R) ?k ?st)
      with (m false (Plus isDigit)
              (fun st' => m false R k
                 (MState (prev st') (rest st')
                    (caps st' ++ [consumed st st']))) st).
    apply plus_run; [exact Hne | exact Hds | |].
    { apply (head_class isSpace); [apply space_not_digit | done | done]. }
    cbn [prev rest caps]. unfold consumed. cbn [rest app].
    rewrite take_all_but.
    change (m false (Cat (Plus isSpace) ?R) ?k ?st)
      with (m false (Plus isSpace) (m false R k) st).
    apply plus_run; [exact Hne2 | exact Hws2 | | exact Hr].
    each_unit Hu; intros x [= <-]; reflexivity. }
  assert (Hat : exists m0,
            matchAt false (source amountUnitPattern) None
              (list_ascii_of_string "in" ++ ws1 ++ ds ++ ws2
               ++ list_ascii_of_string u)
            = Some [m0; string_of_list_ascii ds; singular u]).
  { unfold matchAt. rewrite Hm, Hcaps. eexists. cbn [map app].
    by rewrite string_of_list_ascii_of_string. }
  destruct Hat as (m0 & Hat). exists m0.
  change (list_ascii_of_string "in") with ["i"; "n"]%char in *.
  cbn [app] in *. change (ignoreCase amountUnitPattern) with false.
  cbn [search]. by rewrite Hat.
Qed.

(** On a phrase that the "in" pattern selects the resolver prints the
    instant its [switch] reaches for the amount and the unit read. *)
Lemma resolver_on_selected tza e ds u now :
  u ∈ unitNames -> inShape e ds u ->
  calculateRelativeTime tza (string_of_list_ascii e) now
  = printed tza
      (target tza (singular u) (parseInt (string_of_list_ascii ds)) now).
Proof.
  intros Hu He. unfold calculateRelativeTime.
  destruct (inShape_normal e ds u Hu He) as (ws1 & ws2 & Hg1 & Hg2 & Hds & ->).
  destruct (amountUnit_reads_selected ws1 ds ws2 u Hg1 Hds Hg2 Hu)
    as (m0 & ->).
  cbn [lookup list_lookup default from_option id].
  apply FormatFacts.print_target.
Qed.

Lemma space_not_i c : isSpace c = true -> eqb_cu false "i" c = false.
Proof.
  destruct c as [[] [] [] [] [] [] [] []]; intros H;
    try (vm_compute in H; discriminate H); reflexivity.
Qed.

Lemma search_step ic r p c l :
  matchAt ic r p (c :: l) = None ->
  search ic r p (c :: l) = search ic r (Some c) l.
Proof. intros H. cbn [search]. by rewrite H. Qed.

Lemma search_past ic r before tl p :
  (forall q c l, c ∈ before -> matchAt ic r q (c :: l) = None) ->
  search ic r p (before ++ tl) = search ic r (after p before) tl.
Proof.
  revert p. induction before as [| c before IH]; intros p H; [reflexivity |].
  cbn [app]. rewrite search_step by (apply H; set_solver).
  rewrite after_cons. apply IH. intros q c' l Hc. apply H. set_solver.
Qed.

(** "in" before anything but white space is no start of a match. *)
Lemma in_then_other p c l :
  isSpace c = false ->
  matchAt false (source amountUnitPattern) p ("i" :: "n" :: c :: l)%char = None.
Proof.
  intros H. unfold matchAt.
  cbn [source amountUnitPattern cat m lit list_ascii_of_string rest step
       eqb_cu].
  rewrite !Ascii.eqb_refl. cbn [rest]. by rewrite H.
Qed.

Lemma search_past_digits ds tl p :
  Forall (fun c => isDigit c = true) ds ->
  search false (source amountUnitPattern) p (ds ++ tl)
  = search false (source amountUnitPattern) (after p ds) tl.
Proof.
  intros Hds. apply search_past. intros q c l Hc.
  apply amountUnit_needs_i, digit_not_i.
  rewrite Forall_forall in Hds. by apply Hds.
Qed.

Lemma search_past_blank ws tl p :
  blank ws ->
  search false (source amountUnitPattern) p (ws ++ tl)
  = search false (source amountUnitPattern) (after p ws) tl.
Proof.
  intros Hws. apply search_past. intros q c l Hc.
  apply amountUnit_needs_i, space_not_i.
  unfold blank in Hws. rewrite Forall_forall in Hws. by apply Hws.
Qed.

(** The resolver's pattern finds nothing in a phrase that the "from now"
    pattern selects, once it is in lower case. *)
Lemma amountUnit_rejects_selected ds ws1 u ws2 ws3 :
  numeral ds -> gap ws1 -> u ∈ unitNames -> gap ws2 -> gap ws3 ->
  match_ (string_of_list_ascii
            (ds ++ ws1 ++ list_ascii_of_string u ++ ws2
             ++ list_ascii_of_string "from" ++ ws3
             ++ list_ascii_of_string "now")) amountUnitPattern
  = None.
Proof.
  intros [_ Hds] [Hne1 Hws1] Hu [Hne2 Hws2] [Hne3 Hws3].
  unfold match_. rewrite list_ascii_of_string_of_list_ascii.
  change (ignoreCase amountUnitPattern) with false.
  rewrite (search_past_digits _ _ _ Hds), (search_past_blank _ _ _ Hws1).
  generalize (after (after None ds) ws1) as q. intros q.
  destruct ws2 as [| w2 ws2]; [done |].
  assert (Hw2 : isSpace w2 = true) by (by inversion Hws2).
  assert (Hunit : exists q',
            search false (source amountUnitPattern) q
              (list_ascii_of_string u ++ (w2 :: ws2)
               ++ list_ascii_of_string "from" ++ ws3
               ++ list_ascii_of_string "now")
            = search false (source amountUnitPattern) q'
                ((w2 :: ws2) ++ list_ascii_of_string "from" ++ ws3
                 ++ list_ascii_of_string "now")).
  { each_unit Hu; eval_tail; cbn [app];
      repeat (rewrite search_step
                by first [ apply amountUnit_needs_i; reflexivity
                         | apply in_then_other; reflexivity ]);
      eexists; reflexivity. }
  destruct Hunit as (q' & ->).
  rewrite (search_past_blank _ _ _ Hws2).
  generalize (after q' (w2 :: ws2)) as q2. intros q2.
  change (list_ascii_of_string "from") with ["f"; "r"; "o"; "m"]%char.
  cbn [app].
  do 4 (rewrite search_step by (apply amountUnit_needs_i; reflexivity)).
  rewrite (search_past_blank _ _ _ Hws3).
  generalize (after (Some "m"%char) ws3) as q3. intros q3.
  change (list_ascii_of_string "now") with ["n"; "o"; "w"]%char.
  do 3 (rewrite search_step by (apply amountUnit_needs_i; reflexivity)).
  reflexivity.
Qed.

Lemma fromNowShape_normal e ds u :
  u ∈ unitNames -> fromNowShape e ds u ->
  match_ (trim (toLowerCase (string_of_list_ascii e))) amountUnitPattern
  = None.
Proof.
  intros Hu (ws1 & cu & ws2 & cfrom & ws3 & cnow & -> & Hds & Hg1 & Hcu & Hg2
             & Hfrom & Hg3 & Hnow).
  assert (Hnormal :
    trim (toLowerCase (string_of_list_ascii
            (ds ++ ws1 ++ cu ++ ws2 ++ cfrom ++ ws3 ++ cnow)))
    = string_of_list_ascii
        (ds ++ ws1 ++ list_ascii_of_string u ++ ws2
         ++ list_ascii_of_string "from" ++ ws3
         ++ list_ascii_of_string "now")).
  { unfold toLowerCase.
    rewrite list_ascii_of_string_of_list_ascii, !map_app.
    rewrite (spells_lower "from" cfrom ltac:(repeat constructor) Hfrom).
    rewrite (spells_lower "now" cnow ltac:(repeat constructor) Hnow).
    rewrite (spells_lower u cu (unit_letters u Hu) Hcu).
    rewrite (blank_lower_id ws1) by apply Hg1.
    rewrite (blank_lower_id ws2) by apply Hg2.
    rewrite (blank_lower_id ws3) by apply Hg3.
    rewrite (digits_lower_id ds) by apply Hds.
    apply trim_id.
    - destruct Hds as [Hne Hds]. destruct Hds as [| c ds Hc _]; [done |].
      intros c' [= <-]. by apply digit_not_space.
    - rewrite !rev_app_distr. intros c [= <-]. reflexivity. }
  rewrite Hnormal. by apply amountUnit_rejects_selected.
Qed.

End SelectedFacts.

(** ** Which branch of the resolver an extracted phrase takes *)

Module BranchFacts.
Import CodeUnit RegExp JSString JSDate Calendar TimeUtils Phrases Shapes
  Selected Units.

Lemma selected_by pat text mt :
  match_ text pat = Some mt ->
  exists q l, matchAt (ignoreCase pat) (source pat) q l = Some mt.
Proof.
  unfold match_. intros H.
  destruct (ExtractFacts.search_at _ _ _ _ _ H) as (before & q & l & _ & Hm).
  by exists q, l.
Qed.

(** X12: when the text holds a phrase of the form "in N unit", in any
    letter case and with any white space between the words, extraction
    returns such a phrase and the resolver reads it: its pattern matches
    the phrase and captures the digits of N and the unit (a plural as
    its singular), so the branch that falls back to the base instant is
    not taken.  The result is the one that the [switch] reaches for that
    amount and unit, the same as for the plain phrase "in N unit"; for a
    unit of fixed length and an amount whose sums the host computes
    exactly, it is the local wall clock of the base moved by N units. *)
Theorem in_phrases_resolve tza text :
  test inPattern text = true ->
  exists phrase ds u m0,
    extractRelativeTimeExpression text = Some phrase
    /\ u ∈ unitNames
    /\ inShape (list_ascii_of_string phrase) ds u
    /\ match_ (trim (toLowerCase phrase)) amountUnitPattern
       = Some [m0; string_of_list_ascii ds; singular u]
    /\ (forall base,
          calculateRelativeTime tza phrase base
          = printed tza
              (target tza (singular u) (parseInt (string_of_list_ascii ds))
                 base)
          /\ calculateRelativeTime tza phrase base
             = calculateRelativeTime tza (inPhrase ds u) base)
    /\ (forall ms t,
          unitLength u = Some ms ->
          exactSum (parseInt (string_of_list_ascii ds)) ms ->
          calculateRelativeTime tza phrase (Some t)
          = printed tza
              (TimeClip (UTC tza (LocalTime tza t
                                  + parseInt (string_of_list_ascii ds) * ms)))).
Proof.
  unfold test, extractRelativeTimeExpression. cbn [firstMatch].
  destruct (match_ text inPattern) as [mt |] eqn:E; [| discriminate].
  intros _. destruct (selected_by _ _ _ E) as (q & l & Hm).
  destruct (InversionFacts.inPattern_inv _ _ _ Hm)
    as (e & ds & u & behind & _ & -> & Hu & He).
  destruct (SelectedFacts.inShape_normal e ds u Hu He)
    as (ws1 & ws2 & Hg1 & Hg2 & Hds & Hnormal).
  destruct (SelectedFacts.amountUnit_reads_selected ws1 ds ws2 u Hg1 Hds Hg2
              Hu) as (m0 & Hmatch).
  exists (string_of_list_ascii e), ds, u, m0. cbn [default from_option id].
  rewrite list_ascii_of_string_of_list_ascii. do 3 (split; [done |]).
  split; [by rewrite Hnormal |].
  assert (Hcalc : forall base,
            calculateRelativeTime tza (string_of_list_ascii e) base
            = printed tza
                (target tza (singular u)
                   (parseInt (string_of_list_ascii ds)) base))
    by (intros base; apply SelectedFacts.resolver_on_selected; done).
  split.
  - intros base. split; [apply Hcalc |]. rewrite Hcalc.
    symmetry. by apply ResolverFacts.resolver_on_phrase.
  - intros ms t Hms _. rewrite Hcalc.
    by rewrite (ResolverFacts.target_local _ _ _ _ _ Hms).
Qed.

(** X13: when the text holds no "in N unit" phrase and extraction
    returns a phrase, that phrase has the form "N unit from now", in any
    letter case and with any white space between the words, and the
    resolver does not read it: the amount is dropped and the result is the
    date and time of the base instant, as [getCurrentDateTime] prints
    them. *)
Theorem from_now_phrases_fall_back tza text phrase :
  test inPattern text = false ->
  extractRelativeTimeExpression text = Some phrase ->
  exists ds u,
    u ∈ unitNames
    /\ fromNowShape (list_ascii_of_string phrase) ds u
    /\ forall t,
         calculateRelativeTime tza phrase (Some t)
         = getCurrentDateTime tza (Some t).
Proof.
  unfold test, extractRelativeTimeExpression. cbn [firstMatch].
  destruct (match_ text inPattern) as [mt |] eqn:E; [discriminate |].
  intros _.
  destruct (match_ text fromNowPattern) as [mt |] eqn:E'; [| discriminate].
  intros [= <-]. destruct (selected_by _ _ _ E') as (q & l & Hm).
  destruct (InversionFacts.fromNowPattern_inv _ _ _ Hm)
    as (e & ds & u & behind & _ & -> & Hu & He).
  exists ds, u. cbn [default from_option id].
  rewrite list_ascii_of_string_of_list_ascii. do 2 (split; [done |]).
  intros t. rewrite FormatFacts.getCurrentDateTime_ok.
  apply FormatFacts.fallback_to_base.
  by apply SelectedFacts.fromNowShape_normal with ds u.
Qed.

End BranchFacts.

(** ** The further properties on examples *)

Module FurtherExamples.
Import CodeUnit RegExp JSString JSDate JSValue Calendar TimeUtils
  GeminiService Checks Phrases Shapes Selected Units Host.

Lemma numeral_90 : numeral ["9"; "0"]%char.
Proof. split; [discriminate | repeat constructor]. Qed.

Lemma numeral_1 : numeral ["1"]%char.
Proof. split; [discriminate | repeat constructor]. Qed.

Lemma numeral_3 : numeral ["3"]%char.
Proof. split; [discriminate | repeat constructor]. Qed.

Lemma exact_90_minutes : exactSum (parseInt "90") msPerMinute.
Proof. split; vm_compute; discriminate. Qed.

(** 18:20 UTC on 15 January 2024 is 23:50 at UTC+05:30; ninety minutes
    on it is 01:20 there, on a day that is still 15 January at UTC. *)
Lemma fixed_length_units_witness :
  calculateRelativeTime IST "in 90 minutes" (Some (utc 2024 0 15 18 20))
  = Ok {| date := "2024-01-15"; time := "01:20" |}.
Proof.
  change "in 90 minutes"%string with (inPhrase ["9"; "0"]%char "minutes").
  rewrite (proj2 (ResolverFacts.fixed_length_units IST ["9"; "0"]%char
                    "minutes" msPerMinute (utc 2024 0 15 18 20) numeral_90
                    eq_refl exact_90_minutes) IST).
  reflexivity.
Defined.

Lemma clock_moves_by_amount_witness :
  time {| date := "2024-01-15"; time := "01:20" |}
  = clockAt ((minuteOfDay (LocalTime IST (utc 2024 0 15 18 20))
              + parseInt "90" * (msPerMinute / msPerMinute)) mod 1440).
Proof.
  apply (proj1 (ResolverFacts.clock_moves_by_amount IST ["9"; "0"]%char
                  "minutes" msPerMinute (utc 2024 0 15 18 20) numeral_90
                  eq_refl exact_90_minutes)
           {| date := "2024-01-15"; time := "01:20" |}).
  - vm_compute. reflexivity.
  - vm_compute. reflexivity.
Defined.

Lemma whole_days_keep_time_witness :
  exists now,
    getCurrentDateTime IST (Some (utc 2024 0 15 18 20)) = Ok now
    /\ time {| date := "2024-02-05"; time := "23:50" |} = time now.
Proof.
  apply (proj1 (ResolverFacts.whole_days_keep_time IST ["3"]%char "weeks"
                  (7 * msPerDay) (utc 2024 0 15 18 20) numeral_3
                  ltac:(set_solver) eq_refl)
           {| date := "2024-02-05"; time := "23:50" |}).
  - vm_compute. reflexivity.
  - vm_compute. reflexivity.
Defined.

(** One month on from 31 January 2024, 15:30 local time: February has 29
    days that year, so the day spills into March, to 2 March. *)
Lemma months_without_clamping_witness :
  exists x,
    calculateRelativeTime IST "in 1 month" (Some (utc 2024 0 31 10 0))
    = printed IST (TimeClip (UTC IST x))
    /\ YearFromTime x = 2024
    /\ MonthFromTime x = 2
    /\ DateFromTime x = 2.
Proof.
  destruct (MonthYearFacts.months_without_clamping IST ["1"]%char "month"
              (utc 2024 0 31 10 0) numeral_1 ltac:(set_solver))
    as (x & Hcalc & _ & Hy & Hmd).
  exists x. split; [exact Hcalc |]. split; [exact Hy |]. exact Hmd.
Defined.

(** One year on from 29 February 2024 is 1 March 2025. *)
Lemma years_keep_month_and_day_witness :
  exists x,
    calculateRelativeTime IST "in 1 year" (Some (utc 2024 1 29 10 0))
    = printed IST (TimeClip (UTC IST x))
    /\ YearFromTime x = 2025
    /\ MonthFromTime x = 2
    /\ DateFromTime x = 1.
Proof.
  destruct (MonthYearFacts.years_keep_month_and_day IST ["1"]%char "year"
              (utc 2024 1 29 10 0) numeral_1 ltac:(set_solver))
    as (x & Hcalc & _ & Hy & Hmd).
  exists x. split; [exact Hcalc |]. split; [exact Hy |]. exact Hmd.
Defined.

Lemma resolver_ignores_case_and_padding_witness :
  calculateRelativeTime IST "  In 2 Hours " morning
  = calculateRelativeTime IST "In 2 Hours" morning
  /\ calculateRelativeTime IST "in 2 hours" morning
     = calculateRelativeTime IST "In 2 Hours" morning.
Proof.
  apply (NormalFacts.resolver_ignores_case_and_padding IST "In 2 Hours"
           [" "; " "]%char [" "]%char morning);
    repeat constructor.
Defined.

Lemma output_format_witness :
  test timeRegex "00:10" = true
  /\ exists t',
       "2024-01-15"%string = dateOf t'
       /\ "00:10"%string = localClockOf IST t'
       /\ test dateRegex "2024-01-15"
          = (0 <=? YearFromTime t') && (YearFromTime t' <=? 9999).
Proof.
  apply (PipelineFacts.output_format IST
           {| date := "2024-01-15"; time := "00:10" |}).
  left. exists "in 20 minutes"%string, (Some (utc 2024 0 15 18 20)).
  vm_compute. reflexivity.
Defined.

(** The model's date and time are not even texts; the override makes the
    candidate pass. *)
Lemma override_settles_date_and_time_witness :
  exists processedData,
    postProcessScheduleData number 0
      (<["date" := VNull]> (<["time" := VBool true]> callSarah))
      "remind me to call Sarah in 30 minutes" morning = Ok processedData
    /\ (accepts numberToBoolean numberToString processedData <->
        ToBoolean numberToBoolean
          ((<["date" := VNull]> (<["time" := VBool true]> callSarah))
           !! "title") = true
        /\ typeOk (<["date" := VNull]> (<["time" := VBool true]> callSarah))
           = true
        /\ priorityOk numberToBoolean
             (<["date" := VNull]> (<["time" := VBool true]> callSarah))
           = true
        /\ test dateRegex "2024-01-15" = true).
Proof.
  apply (PipelineFacts.override_settles_date_and_time numberToBoolean
           numberToString 0
           (<["date" := VNull]> (<["time" := VBool true]> callSarah))
           "remind me to call Sarah in 30 minutes" morning "in 30 minutes"
           {| date := "2024-01-15"; time := "09:20" |});
    vm_compute; reflexivity.
Defined.

Lemma success_carries_resolved_time_witness :
  exists text span parsed processedData,
    Ok ("Sure! " +:+ callSarahText) = Ok text
    /\ SpecReading.firstToLast (list_ascii_of_string text) = Some span
    /\ JSON_parse (string_of_list_ascii span) = Ok parsed
    /\ processSchedulePrompt number numberToBoolean numberToString 0
         JSON_parse "remind me to call Sarah in 30 minutes"
         (Ok ("Sure! " +:+ callSarahText)) morning
       = {| success := true; data := Some processedData; error := None |}
    /\ accepts numberToBoolean numberToString processedData
    /\ match
         extractRelativeTimeExpression "remind me to call Sarah in 30 minutes"
       with
       | None => processedData = parsed
       | Some phrase =>
           exists r,
             calculateRelativeTime 0 phrase morning = Ok r
             /\ processedData
                = <["time" := VStr (time r)]>
                    (<["date" := VStr (date r)]> parsed)
       end.
Proof.
  apply (PipelineFacts.success_carries_resolved_time numberToBoolean
           numberToString 0 JSON_parse
           "remind me to call Sarah in 30 minutes"
           (Ok ("Sure! " +:+ callSarahText)) morning).
  vm_compute. reflexivity.
Defined.

Lemma extracted_is_in_text_witness :
  "in 2 hours"%string ≠ ""%string
  /\ exists before behind,
       list_ascii_of_string "Call me in 2 hours today"
       = before ++ list_ascii_of_string "in 2 hours" ++ behind.
Proof.
  apply (ExtractFacts.extracted_is_in_text "Call me in 2 hours today").
  vm_compute. reflexivity.
Defined.

Lemma in_phrases_resolve_witness :
  exists phrase ds u m0,
    extractRelativeTimeExpression "Ping me IN  45 Minutes please"
    = Some phrase
    /\ u ∈ unitNames
    /\ inShape (list_ascii_of_string phrase) ds u
    /\ match_ (trim (toLowerCase phrase)) amountUnitPattern
       = Some [m0; string_of_list_ascii ds; singular u]
    /\ (forall base,
          calculateRelativeTime IST phrase base
          = printed IST
              (target IST (singular u) (parseInt (string_of_list_ascii ds))
                 base)
          /\ calculateRelativeTime IST phrase base
             = calculateRelativeTime IST (inPhrase ds u) base)
    /\ (forall ms t,
          unitLength u = Some ms ->
          exactSum (parseInt (string_of_list_ascii ds)) ms ->
          calculateRelativeTime IST phrase (Some t)
          = printed IST
              (TimeClip (UTC IST (LocalTime IST t
                                  + parseInt (string_of_list_ascii ds) * ms)))).
Proof.
  apply (BranchFacts.in_phrases_resolve IST "Ping me IN  45 Minutes please").
  vm_compute. reflexivity.
Defined.

(** What the phrase of the witness resolves to: the amount 45 and the
    unit minute are read, and the base is not returned. *)
Lemma in_phrase_is_read :
  extractRelativeTimeExpression "Ping me IN  45 Minutes please"
  = Some "IN  45 Minutes"
  /\ match_ (trim (toLowerCase "IN  45 Minutes")) amountUnitPattern
     = Some ["in  45 minute"; "45"; "minute"]
  /\ calculateRelativeTime IST "IN  45 Minutes" morning
     = Ok {| date := "2024-01-15"; time := "15:05" |}
  /\ getCurrentDateTime IST morning
     = Ok {| date := "2024-01-15"; time := "14:20" |}.
Proof. repeat split; vm_compute; reflexivity. Qed.

Lemma from_now_phrases_fall_back_witness :
  exists ds u,
    u ∈ unitNames
    /\ fromNowShape (list_ascii_of_string "45 Minutes  From now") ds u
    /\ forall t,
         calculateRelativeTime IST "45 Minutes  From now" (Some t)
         = getCurrentDateTime IST (Some t).
Proof.
  apply (BranchFacts.from_now_phrases_fall_back IST
           "Ping me 45 Minutes  From now please");
    vm_compute; reflexivity.
Defined.

(** A host on United States Eastern Time, across the start of daylight
    saving on 10 March 2024.  From 19:30 on 9 March, "in 1 day" reaches
    19:30 on 10 March on the wall clock, an instant 23 hours on, whose UTC
    date is still 10 March; a zone that kept the offset of the base would
    print 11 March. *)
Lemma a_day_across_a_transition :
  localClockOf Hosts.easternTime (utc 2024 2 10 0 30) = "19:30" /\
  calculateRelativeTime Hosts.easternTime "in 1 day"
    (Some (utc 2024 2 10 0 30))
  = Ok {| date := "2024-03-10"; time := "19:30" |} /\
  calculateRelativeTime (-5 * msPerHour) "in 1 day"
    (Some (utc 2024 2 10 0 30))
  = Ok {| date := "2024-03-11"; time := "19:30" |}.
Proof. repeat split; vm_compute; reflexivity. Qed.

(** On the same host, from 02:30 on 9 March, "in 1 day" reaches a local
    time that the transition skips: that local time is not shown, and
    the time printed is 03:30. *)
Lemma a_day_into_the_skipped_hour :
  localClockOf Hosts.easternTime (utc 2024 2 9 7 30) = "02:30" /\
  LocalTime Hosts.easternTime
    (UTC Hosts.easternTime
       (LocalTime Hosts.easternTime (utc 2024 2 9 7 30) + 1 * msPerDay))
  = LocalTime Hosts.easternTime (utc 2024 2 9 7 30) + 1 * msPerDay
    + msPerHour /\
  calculateRelativeTime Hosts.easternTime "in 1 day"
    (Some (utc 2024 2 9 7 30))
  = Ok {| date := "2024-03-10"; time := "03:30" |}.
Proof. repeat split; vm_compute; reflexivity. Qed.

End FurtherExamples.
